(* ===== verification/_CoqProject ===== *)
-Q . S2P
Prelude.v
JSString.v
JSNumber.v
Minutes.v
Regex.v
Email.v
JSDate.v
Calendar.v
Row.v
Pipeline.v
Script.v
