(* ===== verification/Prelude.v ===== *)
(** * A verification of historylab-peeping-cleaner (src/cleaner.js)

    ** The program

    [src/cleaner.js] is a Node script. It reads a comma-separated file
    with csv-parser (lines 52-53), handles each row in a ['data'] listener
    (lines 54-76), and on ['end'] writes the collected rows as a
    tab-separated file with fast-csv (lines 77-85). The listener calls
    three helpers:
    - [cleanEmail] (lines 28-33) replaces the first comma by a dot, trims,
      lower-cases, and keeps the address if it matches
      [/^[^@]+@[^@]+\.[^@]+$/];
    - [parseCzechDate] (lines 36-45) turns ["D.M.YYYY HH:MM"] into a
      [Date], through the string [`${y}-${m}-${d}T${hh}:${mm}:00`];
    - [convertToMinutes] (lines 11-25) turns ["H:M:S"] or ["M:S"] into
      minutes capped at 60.
    A row is kept when its cleaned e-mail is non-empty and [zam === '0'].
    It then gets [timeSpentMinutes], [cleanedEmail] and [COVID], the flag
    that [dateCreated] lies between [covidStart] and [covidEnd]
    (lines 47-48, 58-59). Two text cells are remapped, a suffix is added
    to [b4], and the row is pushed to [results].

    ** Files and what they model

    - [Prelude] (this file): the error monad [throws] that models a thrown
      [TypeError], its [let!] notation in [js_scope], the hint databases
      [js] and [js_simpl], and shared tactics and lemmas on lists and
      integers.
    - [JSString]: JS strings as lists of UTF-16 code units ([jsstr]).
      It models [String.prototype.split] with a one-unit separator
      ([split_on]), [replace] with a string pattern ([replace_first]),
      [trim] with the ECMAScript white-space set ([is_ws]), and [padStart].
      [toLowerCase] is the interface [CaseMapping]. Its laws are those the
      proofs need: ASCII is mapped as in Unicode, no ASCII capital is left,
      and ['@'] and ['.'] are kept. The instance [latin1_case] maps
      Latin-1 letters.
    - [JSNumber]: JS numbers as [jsnum] (NaN, the infinities, or an exact
      rational). It models StringToNumber ([ToNumber], ECMA-262 7.1.4.1.1:
      white space, signs, [Infinity], [0x]/[0o]/[0b], decimals with
      exponents, overflow to the infinities), Number::toString
      ([num_to_string]), [+], [*], [/], [Math.floor], [Math.min], ToString
      on values ([jsval]), truthiness and [===].
    - [Minutes]: [convertToMinutes], with its parts selection
      [minutes_of_parts].
    - [Regex]: the backtracking matcher of ECMA-262 22.2.2 ([m], [star_m])
      for the pattern fragment used at line 31, and [RegExp.prototype.test]
      ([regex_test]). They are proved equal to the declarative semantics
      [pmatch].
    - [Email]: [cleanEmail] and its regular expression [email_re]. The
      accepted strings are described by the Prop [email_shape], which is
      decidable.
    - [JSDate]: the date arithmetic of ECMA-262 21.4.1 ([MakeDay],
      [MakeTime], [MakeDate], [TimeClip]) and the ISO date-only form read as
      UTC ([covidStart], [covidEnd]). The date-time form without an offset
      is read as local time; its engine-dependent parts are the interface
      [LocalTime]. It holds the zone offset and [parse_local], whose law
      fixes the result on well-formed input ([date_fields]). The instance
      [fixed_offset_time] is a zone with a constant offset. The file also
      holds [parseCzechDate] and the flag [covid_of] (lines 58-59).
    - [Calendar]: the calendar order of [MakeDay] day numbers (from the
      year length given by [DayFromYear]), and the COVID flag as a function
      of the calendar day ([covid_day]).
    - [Row]: rows as association lists in insertion order ([obj], [get],
      [set]), the update [enrich] (lines 61-73), and the listener [onData]
      (lines 54-76). [onData] returns [Ok None] on the early return,
      [Ok (Some row')] for a pushed row, and [Throw TypeError] when a helper
      throws. The output of a kept row is specified by the Record
      [row_contract].
    - [Pipeline]: the stream as a state machine. [step] is the step
      relation, [reachable] is the set of reachable states, [handle] is
      the step as a function, and [run] runs one file ([events_of]).
      [results] is the state's array, and the phase records whether the
      file was written or the process crashed.
    - [Script]: the script around the stream. It holds the paths of lines
      7-8 ([path_join] for [path.join] on a normalised [__dirname]) and
      the effects of one execution in order ([script]): read the input,
      then either write [results] as TSV and log the line of line 83, or
      die of an uncaught [TypeError].

    ** What is proved

    - Script ([Script]): [script_refines] composes the refinement of the
      stream with the script's effects: the kept rows are written to
      [outputFilePath], and the log line comes after the write.
    - Pipeline ([Pipeline]): [run_refines] shows that a file whose rows
      carry the cells the listener reads is written as the kept rows in
      input order, each meeting [row_contract]. [reachable_good] is the
      invariant of every reachable state, by induction on [reachable].
      [run_written] gives the written array when no row throws.
      [run_crashed] shows that a row which throws stops the process before
      anything is written, and [run_crash_prefix] gives the final state
      exactly: the rows pushed before the first throwing row stay in
      [results], unwritten, and the rows after it are never handled.
      [run_uniform_columns] shows that rows with the same columns are
      written with the same columns ([enriched_keys]), so the header that
      fast-csv takes from the first row covers every row.
    - Listener ([Row]): [onData_drop] characterises the early return,
      [onData_contract] gives the output cells, and [onData_throws] gives
      the exact throwing condition.
    - [cleanEmail] ([Email], [Regex]): the lemmas [m_spec] and
      [test_from_spec] prove the backtracking matcher equal to [pmatch];
      on them [email_re_spec] characterises the pattern.
      [cleanEmail_spec] gives the function on every input,
      [cleanEmail_output] the shape and case of every kept address, and
      [cleanEmail_rejects] covers the spec's rejections.
    - [convertToMinutes] ([Minutes]): the value on ["H:M:S"] and ["M:S"]
      digit fields, 0 on any other field count
      ([convertToMinutes_other_counts]), the range [0, 60] on digit fields,
      and the cap at 60 for every argument.
    - Dates ([JSDate], [Calendar]): [covid_of_wellformed] gives the COVID
      flag of well-formed input in terms of the zone offset, and
      [covid_of_degrades] the degradation to 0 on malformed text.
      [covid_by_day] gives the flag by calendar day for every zone east of
      UTC; on the two boundary days it compares the local time of day with
      the zone offset.
    - Findings, proved as theorems over all inputs of their shape:
      - [onData_throws] and [run_crash_prefix]: a kept row without
        [dateCreated] crashes the run, losing every row;
      - [covid_by_day]: the window starts at midnight UTC and ends at
        midnight UTC of 30.5.2021, so in Prague the first hour of
        13.3.2020 is outside it and most of 30.5.2021 too, and the
        written file depends on the machine's time zone;
      - [convertToMinutes_negative_field] and [convertToMinutes_nan_field]:
        fields are not checked, so ["-M:S"] gives a negative count and a
        non-numeric field gives [NaN];
      - [cleanEmail_comma_domain]: an address [l@d1,d2] with no dot after
        its ['@'] is kept as [l@d1.d2];
      - [cleanEmail_not_idempotent]: an address with two commas is kept
        with one of them, and cleaning it again changes it.

    ** Bounds

    - Numbers are exact rationals. This agrees with IEEE doubles for the
      integers the program produces, all below 2^53. The theorems on
      digit fields ([digit_field]) limit a field to 300 digits, which keeps
      its value below the overflow threshold 2^1024 - 2^970 of
      StringToNumber. Beyond that threshold the model returns Infinity, as
      the engine does.
    - [num_to_string] prints integers below 10^21 exactly. It cuts other
      non-terminating decimals at 20 digits; no theorem depends on that
      case.
    - Three definitions of [JSNumber] use fuel: the digit loop
      [digits_aux] of [Z_to_digits], [strip_zeros] and
      [terminating_exp]. The fuel of [Z_to_digits] is one more than
      [log2 n], which exceeds the digit count ([Z_to_digits_fuel_bound]),
      so [Z_to_digits_spec] shows that it always prints all the digits of
      [n]. The other two serve only non-integer output, on which no
      theorem depends. All other recursion is structural.

    ** Not modelled

    - csv-parser (the parsing of the input file) and fast-csv (the writing
      of the output) are libraries the script only calls. Their
      contribution is the sequence of row objects ([events_of]) and the
      written array ([WriteTsv]). Neither library is code of this
      repository, so the bytes of the TSV file (quoting, the header line)
      are not modelled.
    - [require] (lines 1-4) loads modules, and the contents of the files
      that [fs] reads and writes are outside the program. [path.join]
      is modelled only for a normalised directory, which [__dirname]
      always is.
    - Objects keep insertion order. The JS rule that integer-like keys
      come first is not modelled, since the keys here are column names.
    - IEEE rounding, the sign of zero, and the full Unicode case mapping
      and time-zone database are not modelled. The last two are the
      interfaces [CaseMapping] and [LocalTime].
*)

From Stdlib Require Export String Ascii.
From stdpp Require Export base list options decidable sets.
From Stdlib Require Export ZArith NArith Lia.

(** ** Exceptions: the error monad of the row handler

    The only exception the modelled code can raise is a [TypeError]
    (a method called on [undefined] or on a number). It propagates out of
    the stream listener and ends the process. *)

Inductive js_error := TypeError.

Inductive throws (A : Type) : Type :=
| Ok (a : A)
| Throw (e : js_error).
Arguments Ok {A} a.
Arguments Throw {A} e.

#[export] Instance throws_ret : MRet throws := fun A a => Ok a.
#[export] Instance throws_bind : MBind throws :=
  fun A B k m => match m with Ok a => k a | Throw e => Throw e end.

Declare Scope js_scope.
Delimit Scope js_scope with js.

(** [let! x := m in k]: run [m], stop on a thrown error. *)
Notation "'let!' x ':=' m 'in' k" := (mbind (fun x => k) m)
  (at level 10, x name, m at level 100, k at level 200) : js_scope.

Lemma throws_bind_Ok {A B} (a : A) (k : A -> throws B) :
  mbind k (Ok a) = k a.
Proof. reflexivity. Qed.

Lemma throws_bind_Throw {A B} (e : js_error) (k : A -> throws B) :
  mbind k (Throw e) = Throw e.
Proof. reflexivity. Qed.

Lemma throws_bind_Ok_inv {A B} (m : throws A) (k : A -> throws B) b :
  mbind k m = Ok b -> exists a, m = Ok a /\ k a = Ok b.
Proof. destruct m; simpl; [eauto | discriminate]. Qed.

Create HintDb js discriminated.
Create Rewrite HintDb js_simpl.
#[export] Hint Rewrite @throws_bind_Ok @throws_bind_Throw : js_simpl.

(** ** Tactics *)

Ltac invc H := inversion H; clear H; subst.

(** Split boolean conjunctions and turn decision tests into propositions. *)
Ltac bool_to_prop :=
  repeat match goal with
  | H : (_ && _)%bool = true |- _ => apply andb_true_iff in H as [? ?]
  | H : (_ || _)%bool = true |- _ => apply orb_true_iff in H as [H | H]
  | H : bool_decide _ = true |- _ => apply bool_decide_eq_true in H
  | H : bool_decide _ = false |- _ => apply bool_decide_eq_false in H
  | |- (_ && _)%bool = true => apply andb_true_iff; split
  | |- bool_decide _ = true => apply bool_decide_eq_true
  end.

(** ** Integer lemmas shared by the calendar and the time arithmetic *)

Local Open Scope Z_scope.

Lemma Z_div_succ_bounds (a k : Z) :
  0 < k -> a / k <= (a + 1) / k <= a / k + 1.
Proof.
  intros Hk. split.
  - apply Z.div_le_mono; lia.
  - pose proof (Z.div_mod a k ltac:(lia)) as Ha.
    pose proof (Z.mod_pos_bound a k Hk) as Hm.
    pose proof (Z.div_mod (a + 1) k ltac:(lia)) as Hb.
    pose proof (Z.mod_pos_bound (a + 1) k Hk) as Hm'.
    nia.
Qed.

Lemma Z_div_mono_step (a b k : Z) :
  0 < k -> a <= b -> a / k <= b / k.
Proof. intros. apply Z.div_le_mono; lia. Qed.

#[export] Hint Resolve Z_div_mono_step : js.

(** ** List lemmas *)

Lemma omap_app_single {A B} (f : A -> option B) (l : list A) (x : A) :
  omap f (l ++ [x]) = omap f l ++ from_option (fun b => [b]) [] (f x).
Proof.
  rewrite omap_app. simpl. destruct (f x); simpl; by rewrite ?app_nil_r.
Qed.

Lemma elem_of_rev_iff {A} (x : A) (l : list A) : x ∈ rev l <-> x ∈ l.
Proof.
  rewrite !list_elem_of_In. symmetry. apply in_rev.
Qed.

(** Close a decidable goal on concrete data by evaluation. *)
Ltac decide_goal := apply (bool_decide_unpack _); vm_compute; exact I.
