(* ===== verification/JSString.v ===== *)
(** * JavaScript strings as sequences of UTF-16 code units

    The builtins of [String.prototype] that src/cleaner.js calls:
    [split] with a one-unit separator (lines 13, 37, 40, 43), [replace]
    with a one-unit pattern (line 30), [trim] (lines 30, 40),
    [padStart] with a one-unit filler (line 44) and [toLowerCase]
    (line 30). [toLowerCase] depends on the Unicode case tables of the
    engine; it is an interface ([CaseMapping]) with the laws the
    development uses, and one instance for evaluation. *)

From S2P Require Import Prelude.

Local Open Scope N_scope.

Definition jsstr := list N.

(** A Rocq (ASCII) string literal as JavaScript code units. *)
Definition js (s : string) : jsstr := map N_of_ascii (list_ascii_of_string s).

Definition u_tab : N := 9.
Definition u_space : N := 32.
Definition u_plus : N := 43.
Definition u_comma : N := 44.
Definition u_minus : N := 45.
Definition u_dot : N := 46.
Definition u_zero : N := 48.
Definition u_colon : N := 58.
Definition u_at : N := 64.
Definition u_T : N := 84.

(** ** WhiteSpace and LineTerminator (ECMA-262, 12.2 and 12.3),
    the set [trim] removes and [Number] skips. *)
Definition is_ws (c : N) : bool :=
  bool_decide (c = 9 \/ c = 10 \/ c = 11 \/ c = 12 \/ c = 13 \/ c = 32
    \/ c = 160 \/ c = 5760 \/ (8192 <= c <= 8202)%N \/ c = 8232 \/ c = 8233
    \/ c = 8239 \/ c = 8287 \/ c = 12288 \/ c = 65279).

(** ** [s.split(sep)] for a one-unit separator [sep]: the pieces between
    the occurrences of [sep], in order; [""] gives [[""]]. *)
Fixpoint split_on (sep : N) (s : jsstr) : list jsstr :=
  match s with
  | [] => [[]]
  | c :: s' =>
      let parts := split_on sep s' in
      if decide (c = sep) then [] :: parts
      else match parts with
           | p :: ps => (c :: p) :: ps
           | [] => [[c]]
           end
  end.

(** [parts.join(sep)], the inverse of [split_on]. *)
Fixpoint join_on (sep : N) (parts : list jsstr) : jsstr :=
  match parts with
  | [] => []
  | [p] => p
  | p :: ps => p ++ sep :: join_on sep ps
  end.

(** ** [s.replace(pat, rep)] with one-unit [pat] and [rep]: only the first
    occurrence is replaced. *)
Fixpoint replace_first (pat rep : N) (s : jsstr) : jsstr :=
  match s with
  | [] => []
  | c :: s' => if decide (c = pat) then rep :: s' else c :: replace_first pat rep s'
  end.

(** ** [s.trim()] *)
Fixpoint trim_start (s : jsstr) : jsstr :=
  match s with
  | c :: s' => if is_ws c then trim_start s' else s
  | [] => []
  end.

Definition trim_end (s : jsstr) : jsstr := rev (trim_start (rev s)).

Definition trim (s : jsstr) : jsstr := trim_end (trim_start s).

(** ** [s.padStart(n, fill)] with a one-unit [fill]. *)
Definition padStart (n : nat) (fill : N) (s : jsstr) : jsstr :=
  if decide (length s < n)%nat then replicate (n - length s)%nat fill ++ s else s.

(** ** Decimal digits *)
Definition is_digit (c : N) : bool := bool_decide (48 <= c <= 57)%N.

Definition digit_val (c : N) : Z := Z.of_N c - 48.

(** The value of a string of decimal digits, most significant first. *)
Definition digits_value (s : jsstr) : Z :=
  fold_left (fun acc c => acc * 10 + digit_val c)%Z s 0%Z.

Definition all_digits (s : jsstr) : bool := forallb is_digit s.

(** ** Case mapping: [String.prototype.toLowerCase]

    The engine's full Unicode lower-case mapping. The development assumes
    only the laws below, which the Unicode tables satisfy: ASCII text is
    lower-cased letter by letter; no character lower-cases to an ASCII
    capital; ['@'] is its own lower case, no other character lower-cases
    to a string containing ['@'] or ['.'], and the mapping is computed
    independently on the two sides of an ['@'] (the only contextual rule,
    final sigma, does not look across ['@']). *)
Definition ascii_lower (c : N) : N :=
  if decide (65 <= c <= 90)%N then (c + 32)%N else c.

Definition is_ascii_upper (c : N) : bool := bool_decide (65 <= c <= 90)%N.

Class CaseMapping := {
  toLowerCase : jsstr -> jsstr;
  toLowerCase_ascii : forall s, Forall (fun c => c < 128)%N s -> toLowerCase s = map ascii_lower s;
  toLowerCase_no_upper : forall s, Forall (fun c => is_ascii_upper c = false) (toLowerCase s);
  toLowerCase_at : forall a b, toLowerCase (a ++ u_at :: b) = toLowerCase a ++ u_at :: toLowerCase b;
  toLowerCase_at_free : forall s, u_at ∉ s -> u_at ∉ toLowerCase s;
  toLowerCase_dot_free : forall s, u_dot ∉ s -> u_dot ∉ toLowerCase s;
}.

(** The Latin-1 part of the Unicode mapping, one unit at a time:
    U+0041..U+005A and U+00C0..U+00DE except U+00D7 move by 32. *)
Definition latin1_lower (c : N) : N :=
  if decide ((65 <= c <= 90)%N \/ ((192 <= c <= 222)%N /\ c <> 215%N)) then (c + 32)%N else c.

Lemma latin1_lower_ascii c : (c < 128)%N -> latin1_lower c = ascii_lower c.
Proof.
  intros Hc. unfold latin1_lower, ascii_lower.
  repeat case_decide; try reflexivity; exfalso; lia.
Qed.

Lemma latin1_lower_not_upper c : is_ascii_upper (latin1_lower c) = false.
Proof.
  unfold is_ascii_upper, latin1_lower. apply bool_decide_eq_false.
  case_decide; lia.
Qed.

Lemma latin1_lower_at c : latin1_lower c = u_at <-> c = u_at.
Proof. unfold latin1_lower, u_at. case_decide; lia. Qed.

Lemma latin1_lower_dot c : latin1_lower c = u_dot <-> c = u_dot.
Proof. unfold latin1_lower, u_dot. case_decide; lia. Qed.

Lemma map_not_elem {A} (f : A -> A) (x : A) (s : list A) :
  (forall c, f c = x <-> c = x) -> x ∉ s -> x ∉ map f s.
Proof.
  intros Hf Hs Hin. apply list_elem_of_fmap in Hin as [c [Hc Hcs]].
  apply Hs. assert (c = x) as <- by (apply Hf; done). done.
Qed.

#[export] Program Instance latin1_case : CaseMapping := {
  toLowerCase := map latin1_lower
}.
Next Obligation.
  intros s Hs. induction Hs; simpl; [done|].
  by rewrite latin1_lower_ascii, IHHs.
Qed.
Next Obligation.
  intros s. apply Forall_forall. intros c Hc.
  apply list_elem_of_fmap in Hc as [c' [-> _]]. apply latin1_lower_not_upper.
Qed.
Next Obligation. intros a b. by rewrite map_app. Qed.
Next Obligation. intros s. apply map_not_elem, latin1_lower_at. Qed.
Next Obligation. intros s. apply map_not_elem, latin1_lower_dot. Qed.

(** ** Lemmas on [split_on] *)

Lemma split_on_free sep s : sep ∉ s -> split_on sep s = [s].
Proof.
  induction s as [|c s IH]; intros Hs; simpl; [done|].
  rewrite IH by set_solver. case_decide; [set_solver | done].
Qed.

Lemma split_on_app sep a b :
  sep ∉ a -> split_on sep (a ++ sep :: b) = a :: split_on sep b.
Proof.
  induction a as [|c a IH]; intros Ha; simpl.
  - by rewrite decide_True.
  - rewrite IH by set_solver. case_decide; [set_solver | done].
Qed.

Lemma split_on_cons_inv sep s :
  exists p ps, split_on sep s = p :: ps.
Proof.
  induction s as [|c s [p [ps IH]]]; simpl; [by eexists _, _|].
  rewrite IH. case_decide; eauto.
Qed.

(** Round trip of [split]: joining the pieces of [s.split(sep)] with
    [sep] gives [s] back. *)
Lemma join_split sep s : join_on sep (split_on sep s) = s.
Proof.
  induction s as [|c s IH]; [done|]. simpl.
  destruct (split_on_cons_inv sep s) as [p [ps Hps]]. rewrite Hps in IH |- *.
  case_decide; subst; destruct ps; simpl in *; by rewrite ?IH.
Qed.

Lemma split_on_parts_free sep s : Forall (fun p => sep ∉ p) (split_on sep s).
Proof.
  induction s as [|c s IH]; simpl; [constructor; set_solver|].
  destruct (split_on_cons_inv sep s) as [p [ps Hps]]. rewrite Hps in IH |- *.
  invc IH. case_decide; repeat constructor; try done; set_solver.
Qed.

(** ** Lemmas on [replace_first] *)

Lemma replace_first_free pat rep s : pat ∉ s -> replace_first pat rep s = s.
Proof.
  induction s as [|c s IH]; intros Hs; simpl; [done|].
  case_decide; [set_solver|]. rewrite IH; set_solver.
Qed.

Lemma replace_first_app pat rep a b :
  pat ∉ a -> replace_first pat rep (a ++ pat :: b) = a ++ rep :: b.
Proof.
  induction a as [|c a IH]; intros Ha; simpl.
  - by rewrite decide_True.
  - case_decide; [set_solver|]. rewrite IH; set_solver.
Qed.

Lemma elem_of_replace_first x pat rep s :
  x <> pat -> x <> rep -> x ∈ replace_first pat rep s <-> x ∈ s.
Proof.
  intros H1 H2. induction s as [|c s IH]; simpl; [done|].
  case_decide; subst; rewrite !elem_of_cons; [|rewrite IH]; naive_solver.
Qed.

(** ** Lemmas on [trim] *)

Lemma trim_start_app_nonws a c b :
  is_ws c = false -> trim_start (a ++ c :: b) = trim_start a ++ c :: b.
Proof.
  intros Hc. induction a as [|x a IH]; simpl; [by rewrite Hc|].
  destruct (is_ws x); [done | reflexivity].
Qed.

Lemma trim_end_app_nonws a c b :
  is_ws c = false -> trim_end (a ++ c :: b) = a ++ c :: trim_end b.
Proof.
  intros Hc. unfold trim_end. rewrite rev_app_distr. simpl.
  rewrite <- app_assoc. simpl. rewrite trim_start_app_nonws by done.
  rewrite rev_app_distr. simpl. rewrite rev_involutive, <- app_assoc. done.
Qed.

(** Trimming around a non-blank unit only touches the two ends. *)
Lemma trim_split_nonws a c b :
  is_ws c = false -> trim (a ++ c :: b) = trim_start a ++ c :: trim_end b.
Proof.
  intros Hc. unfold trim. rewrite trim_start_app_nonws by done.
  by rewrite trim_end_app_nonws.
Qed.

Lemma trim_start_free s : Forall (fun c => is_ws c = false) s -> trim_start s = s.
Proof. intros [|c s' Hc _]; simpl; [done|]. by rewrite Hc. Qed.

Lemma trim_free s : Forall (fun c => is_ws c = false) s -> trim s = s.
Proof.
  intros Hs. unfold trim, trim_end. rewrite (trim_start_free s) by done.
  rewrite trim_start_free; [apply rev_involutive|]. apply Forall_rev. exact Hs.
Qed.

Lemma trim_start_suffix s : exists p, s = p ++ trim_start s.
Proof.
  induction s as [|c s [p IH]]; simpl; [by exists []|].
  destruct (is_ws c); [exists (c :: p); simpl; congruence | by exists []].
Qed.

Lemma trim_infix s : exists p q, s = p ++ trim s ++ q.
Proof.
  destruct (trim_start_suffix s) as [p Hp].
  destruct (trim_start_suffix (rev (trim_start s))) as [q Hq].
  exists p, (rev q). unfold trim, trim_end.
  rewrite Hp at 1. f_equal.
  apply (f_equal (@rev N)) in Hq. by rewrite rev_involutive, rev_app_distr in Hq.
Qed.

Lemma elem_of_trim x s : x ∈ trim s -> x ∈ s.
Proof.
  intros Hx. destruct (trim_infix s) as [p [q Hs]].
  rewrite Hs. set_solver.
Qed.

(** ** [padStart] at width 2 *)

Lemma padStart_long n fill s : (n <= length s)%nat -> padStart n fill s = s.
Proof. intros. unfold padStart. case_decide; [lia | done]. Qed.

Lemma padStart_one fill c : padStart 2 fill [c] = [fill; c].
Proof. reflexivity. Qed.

(** ** [digits_value] *)

Lemma digits_value_app (a b : jsstr) :
  digits_value (a ++ b) = (digits_value a * 10 ^ Z.of_nat (length b) + digits_value b)%Z.
Proof.
  unfold digits_value. rewrite fold_left_app.
  generalize (fold_left (fun acc c => acc * 10 + digit_val c)%Z a 0%Z) as x.
  induction b as [|c b IH] using rev_ind; intros x; simpl.
  - lia.
  - rewrite !fold_left_app, length_app. simpl. rewrite IH.
    rewrite Nat2Z.inj_add, Z.pow_add_r by lia. simpl. lia.
Qed.

Lemma digits_value_cons c s :
  digits_value (c :: s) = (digit_val c * 10 ^ Z.of_nat (length s) + digits_value s)%Z.
Proof. apply (digits_value_app [c] s). Qed.

Lemma is_digit_val c : is_digit c = true -> (0 <= digit_val c < 10)%Z.
Proof. unfold is_digit, digit_val. intros H%bool_decide_eq_true. lia. Qed.

Lemma digits_value_bounds s :
  all_digits s = true -> (0 <= digits_value s < 10 ^ Z.of_nat (length s))%Z.
Proof.
  induction s as [|c s IH]; simpl; [intros _; unfold digits_value; simpl; lia|].
  intros [Hc Hs]%andb_true_iff.
  rewrite digits_value_cons. specialize (IH Hs). apply is_digit_val in Hc.
  rewrite Nat2Z.inj_succ, Z.pow_succ_r by lia. nia.
Qed.

Lemma is_digit_not_ws c : is_digit c = true -> is_ws c = false.
Proof.
  unfold is_digit, is_ws. intros H%bool_decide_eq_true.
  apply bool_decide_eq_false. intros Hw. repeat destruct Hw as [Hw | Hw]; lia.
Qed.

Lemma all_digits_Forall s : all_digits s = true <-> Forall (fun c => is_digit c = true) s.
Proof. unfold all_digits. by rewrite forallb_forall, List.Forall_forall. Qed.

Lemma trim_digits s : all_digits s = true -> trim s = s.
Proof.
  intros Hs. apply trim_free. apply all_digits_Forall in Hs.
  eapply Forall_impl; [exact Hs|]. apply is_digit_not_ws.
Qed.

Lemma all_digits_not_elem u s : is_digit u = false -> all_digits s = true -> u ∉ s.
Proof.
  intros Hu Hs Hin. apply all_digits_Forall in Hs.
  rewrite Forall_forall in Hs. specialize (Hs u Hin). congruence.
Qed.

(** A field the spec calls a non-negative integer: a non-empty string of at
    most 300 decimal digits. *)
Definition digit_field (s : jsstr) : bool :=
  bool_decide (s <> []) && all_digits s && bool_decide (length s <= 300)%nat.

Lemma digit_field_spec s :
  digit_field s = true ->
  s <> [] /\ all_digits s = true /\ (0 <= digits_value s < 10 ^ 300)%Z.
Proof.
  unfold digit_field. intros H.
  apply andb_true_iff in H as [[Hne Hs]%andb_true_iff Hl].
  apply bool_decide_eq_true in Hne, Hl. split; [done | split; [done |]].
  pose proof (digits_value_bounds s Hs) as [H3 H4]. split; [done|].
  eapply Z.lt_le_trans; [exact H4|]. apply Z.pow_le_mono_r; lia.
Qed.

(** Round trip the other way: splitting the join of separator-free pieces. *)
Lemma split_on_join sep fs :
  fs <> [] -> Forall (fun f => sep ∉ f) fs -> split_on sep (join_on sep fs) = fs.
Proof.
  intros Hne Hfs. induction Hfs as [|f fs Hf Hfs IH]; [done|].
  destruct fs as [|f' fs]; simpl.
  - by apply split_on_free.
  - rewrite split_on_app by done. f_equal. by apply IH.
Qed.

Lemma elem_of_join_on x sep fs :
  x ∈ join_on sep fs -> x = sep \/ Exists (fun f => x ∈ f) fs.
Proof.
  induction fs as [|f [|f' fs] IH]; simpl; [set_solver | rewrite Exists_cons; set_solver|].
  rewrite elem_of_app, elem_of_cons, Exists_cons. intros [H | [H | H]]; auto.
  destruct (IH H); auto.
Qed.

(** Trimming a string whose two ends are not blank does nothing. *)
Lemma trim_nonws_ends a mid b :
  a <> [] -> b <> [] ->
  Forall (fun c => is_ws c = false) a -> Forall (fun c => is_ws c = false) b ->
  trim (a ++ mid ++ b) = a ++ mid ++ b.
Proof.
  intros Ha Hb Hfa Hfb. destruct a as [|c a]; [done|]. invc Hfa.
  destruct (exists_last Hb) as (b' & x & ->).
  apply Forall_app in Hfb as [_ Hx]. invc Hx.
  rewrite <- app_comm_cons, <- (app_nil_l (c :: _)), trim_split_nonws by done. simpl.
  replace (a ++ mid ++ b' ++ [x]) with ((a ++ mid ++ b') ++ x :: []) by by rewrite <- !app_assoc.
  rewrite trim_end_app_nonws by done. by rewrite <- !app_assoc.
Qed.

Lemma digits_nonws s : all_digits s = true -> Forall (fun c => is_ws c = false) s.
Proof.
  intros Hs. eapply Forall_impl; [by apply all_digits_Forall|]. apply is_digit_not_ws.
Qed.
