(* ===== verification/JSNumber.v ===== *)
(** * JavaScript numbers and values

    A JavaScript number is [NaN], an infinity, or a finite value kept as
    an exact rational in reduced form. The operations are those of
    src/cleaner.js: [Number] applied to a string (lines 13 and 43),
    [+], [*], [/] (line 18), [Math.floor] (lines 18, 21), [Math.min]
    (line 24) and [String] of a number (line 44). IEEE rounding of
    finite values and the sign of zero are not modelled: every finite
    value the program computes on its well-formed inputs is an integer
    far below 2^53, where doubles are exact. Overflow of a decimal
    literal to [Infinity] is modelled. *)

From S2P Require Import Prelude JSString.
From Stdlib Require Import QArith Qround.

#[export] Instance Q_eq_dec : EqDecision Q.
Proof. intros [a b] [c d]. unfold Decision. decide equality; apply decide; apply _. Defined.

Inductive jsnum :=
| NaN
| PosInf
| NegInf
| Fin (q : Q).

#[export] Instance num_eq_dec : EqDecision jsnum.
Proof. unfold EqDecision, Decision. decide equality. apply Q_eq_dec. Defined.

(** A number holding the integer [z]. *)
Definition jsint (z : Z) : jsnum := Fin (inject_Z z).

(** ** Arithmetic (ECMA-262, 6.1.6.1) *)

Definition num_add (x y : jsnum) : jsnum :=
  match x, y with
  | NaN, _ | _, NaN => NaN
  | PosInf, NegInf | NegInf, PosInf => NaN
  | PosInf, _ | _, PosInf => PosInf
  | NegInf, _ | _, NegInf => NegInf
  | Fin a, Fin b => Fin (Qred (a + b))
  end.

Definition inf_of_sign (positive : bool) : jsnum := if positive then PosInf else NegInf.

(** The sign of a non-zero number; [None] for zero and NaN. *)
Definition num_pos (x : jsnum) : option bool :=
  match x with
  | NaN => None
  | PosInf => Some true
  | NegInf => Some false
  | Fin q => if Qeq_bool q 0 then None else Some (Qle_bool 0 q)
  end.

Definition num_mul (x y : jsnum) : jsnum :=
  match x, y with
  | NaN, _ | _, NaN => NaN
  | Fin a, Fin b => Fin (Qred (a * b))
  | _, _ =>
      match num_pos x, num_pos y with
      | Some sx, Some sy => inf_of_sign (Bool.eqb sx sy)
      | _, _ => NaN
      end
  end.

Definition num_div (x y : jsnum) : jsnum :=
  match x, y with
  | NaN, _ | _, NaN => NaN
  | (PosInf | NegInf), (PosInf | NegInf) => NaN
  | Fin _, (PosInf | NegInf) => Fin 0
  | (PosInf | NegInf), Fin _ =>
      match num_pos x, num_pos y with
      | Some sx, Some sy => inf_of_sign (Bool.eqb sx sy)
      | Some sx, None => x
      | _, _ => NaN
      end
  | Fin a, Fin b =>
      if Qeq_bool b 0 then
        match num_pos x with Some sx => inf_of_sign sx | None => NaN end
      else Fin (Qred (a / b))
  end.

Definition math_floor (x : jsnum) : jsnum :=
  match x with
  | Fin q => jsint (Qfloor q)
  | _ => x
  end.

(** [x <= y] on numbers that are not NaN. *)
Definition num_leb (x y : jsnum) : bool :=
  match x, y with
  | NegInf, _ | _, PosInf => true
  | PosInf, _ | _, NegInf => false
  | Fin a, Fin b => Qle_bool a b
  | _, _ => false
  end.

Definition math_min (x y : jsnum) : jsnum :=
  match x, y with
  | NaN, _ | _, NaN => NaN
  | _, _ => if num_leb x y then x else y
  end.

(** ** [Number(s)] on a string (StringToNumber, ECMA-262, 7.1.4.1.1) *)

(** The longest prefix whose units satisfy [p], and the rest. *)
Fixpoint span (p : N -> bool) (s : jsstr) : jsstr * jsstr :=
  match s with
  | c :: s' => if p c then let (a, r) := span p s' in (c :: a, r) else ([], s)
  | [] => ([], [])
  end.

(** [10^k] as a rational, for an integer [k] of either sign. *)
Definition pow10 (k : Z) : Q :=
  match k with
  | Zpos p => inject_Z (10 ^ Zpos p)
  | Z0 => 1
  | Zneg p => Qmake 1 (Pos.pow 10 p)
  end.

(** The exponent part [(e|E)(+|-)?digits], or nothing. *)
Definition parse_exponent (s : jsstr) : option Z :=
  match s with
  | [] => Some 0%Z
  | e :: r =>
      if decide (e = 101%N \/ e = 69%N) then
        let '(neg, r') := match r with
                          | c :: r' => if decide (c = u_minus) then (true, r')
                                       else if decide (c = u_plus) then (false, r') else (false, r)
                          | [] => (false, r)
                          end in
        if decide (r' <> [] /\ all_digits r' = true)
        then Some (if neg then - digits_value r' else digits_value r')%Z else None
      else None
  end.

(** An unsigned decimal literal: [digits(.digits?)?exp?] or [.digits exp?]. *)
Definition parse_unsigned_decimal (s : jsstr) : option Q :=
  let '(ip, r1) := span is_digit s in
  let '(fp, r2) := match r1 with
                   | c :: r => if decide (c = u_dot) then span is_digit r else ([], r1)
                   | [] => ([], [])
                   end in
  if decide (ip = [] /\ fp = []) then None
  else match parse_exponent r2 with
       | Some e => Some (inject_Z (digits_value (ip ++ fp)) * pow10 (e - Z.of_nat (length fp)))
       | None => None
       end.

(** The smallest decimal value that rounds to [Infinity]: 2^1024 - 2^970. *)
Definition overflow_threshold : Q := inject_Z (2 ^ 1024 - 2 ^ 970).

(** Rounding of an exact decimal value to a number: only overflow is
    modelled. *)
Definition round_decimal (q : Q) : jsnum :=
  if Qle_bool overflow_threshold q then PosInf
  else if Qle_bool overflow_threshold (- q) then NegInf
  else Fin (Qred q).

Definition js_Infinity : jsstr := js "Infinity".

(** [StrUnsignedDecimalLiteral]: ["Infinity"] or a decimal literal. *)
Definition parse_unsigned (s : jsstr) : option jsnum :=
  if decide (s = js_Infinity) then Some PosInf
  else option_map round_decimal (parse_unsigned_decimal s).

Definition hex_val (c : N) : option Z :=
  if decide (48 <= c <= 57)%N then Some (Z.of_N c - 48)%Z
  else if decide (97 <= c <= 102)%N then Some (Z.of_N c - 87)%Z
  else if decide (65 <= c <= 70)%N then Some (Z.of_N c - 55)%Z
  else None.

(** The digits of a [0x], [0o] or [0b] literal in base [b]. *)
Definition parse_radix (b : Z) (s : jsstr) : option Z :=
  match s with
  | [] => None
  | _ => fold_left (fun acc c => match acc, hex_val c with
                                 | Some a, Some d => if decide (d < b)%Z then Some (a * b + d)%Z else None
                                 | _, _ => None
                                 end) s (Some 0%Z)
  end.

Definition non_decimal (s : jsstr) : option jsnum :=
  match s with
  | c :: x :: r =>
      let base := if decide (x = 120%N \/ x = 88%N) then Some 16%Z
                  else if decide (x = 111%N \/ x = 79%N) then Some 8%Z
                  else if decide (x = 98%N \/ x = 66%N) then Some 2%Z else None in
      match base with
      | Some b =>
          if decide (c = u_zero)
          then Some (match parse_radix b r with Some v => round_decimal (inject_Z v) | None => NaN end)
          else None
      | None => None
      end
  | _ => None
  end.

Definition num_neg (x : jsnum) : jsnum :=
  match x with
  | NaN => NaN
  | PosInf => NegInf
  | NegInf => PosInf
  | Fin q => Fin (Qred (- q))
  end.

(** [Number(s)]. *)
Definition ToNumber (s : jsstr) : jsnum :=
  let t := trim s in
  if decide (t = []) then jsint 0
  else match non_decimal t with
       | Some n => n
       | None =>
           match t with
           | c :: r =>
               if decide (c = u_minus) then from_option num_neg NaN (parse_unsigned r)
               else if decide (c = u_plus) then from_option id NaN (parse_unsigned r)
               else from_option id NaN (parse_unsigned t)
           | [] => NaN
           end
       end.

(** ** [String(x)] for a number (Number::toString, ECMA-262, 6.1.6.1.20) *)

Fixpoint digits_aux (fuel : nat) (n : Z) (acc : jsstr) : jsstr :=
  match fuel with
  | O => acc
  | S f =>
      if decide (n < 10)%Z then (Z.to_N n + 48)%N :: acc
      else digits_aux f (n / 10) ((Z.to_N (n mod 10) + 48)%N :: acc)
  end.

(** The decimal digits of a non-negative integer, without leading zeros. *)
Definition Z_to_digits (n : Z) : jsstr := digits_aux (S (Z.to_nat (Z.log2 n))) n [].

(** [q = s * 10^x] with [s] not a multiple of 10, for [q > 0]. Values with
    no finite decimal expansion never reach [String] in this program; they
    are cut after 20 decimals. *)
Fixpoint strip_zeros (fuel : nat) (s x : Z) : Z * Z :=
  match fuel with
  | O => (s, x)
  | S f => if decide (s mod 10 = 0 /\ s <> 0)%Z then strip_zeros f (s / 10) (x + 1) else (s, x)
  end.

Fixpoint terminating_exp (fuel : nat) (e : nat) (d : Z) : option nat :=
  match fuel with
  | O => None
  | S f => if decide ((10 ^ Z.of_nat e) mod d = 0)%Z then Some e else terminating_exp f (S e) d
  end.

Definition decimal_parts (q : Q) : Z * Z :=
  let d := Zpos (Qden q) in
  let e := from_option id 20%nat (terminating_exp (S (Pos.size_nat (Qden q))) 0 d) in
  let s := (Qnum q * (10 ^ Z.of_nat e) / d)%Z in
  strip_zeros (S (Z.to_nat (Z.log2 s))) s (- Z.of_nat e).

Definition js_exponent (n : Z) : jsstr :=
  (101%N :: (if decide (0 <= n - 1)%Z then u_plus else u_minus) :: Z_to_digits (Z.abs (n - 1))).

(** The positive case of Number::toString, from the digits of [s] and the
    decimal exponent [n] (value [0.digits * 10^n]). *)
Definition positive_to_string (q : Q) : jsstr :=
  let '(s, x) := decimal_parts q in
  let ds := Z_to_digits s in
  let k := Z.of_nat (length ds) in
  let n := (k + x)%Z in
  if decide (k <= n <= 21)%Z then ds ++ replicate (Z.to_nat (n - k)) u_zero
  else if decide (0 < n <= 21)%Z then take (Z.to_nat n) ds ++ u_dot :: drop (Z.to_nat n) ds
  else if decide (-6 < n <= 0)%Z then u_zero :: u_dot :: replicate (Z.to_nat (- n)) u_zero ++ ds
  else match ds with
       | [d] => d :: js_exponent n
       | d :: ds' => d :: u_dot :: ds' ++ js_exponent n
       | [] => []
       end.

Definition num_to_string (x : jsnum) : jsstr :=
  match x with
  | NaN => js "NaN"
  | PosInf => js "Infinity"
  | NegInf => js "-Infinity"
  | Fin q =>
      if decide (Qden q = 1%positive /\ (Z.abs (Qnum q) < 10 ^ 21)%Z) then
        (if decide (Qnum q < 0)%Z then [u_minus] else []) ++ Z_to_digits (Z.abs (Qnum q))
      else if Qle_bool 0 q then positive_to_string q
      else u_minus :: positive_to_string (- q)
  end.

(** ** JavaScript values held by a row object *)

Inductive jsval :=
| JUndef
| JNull
| JStr (s : jsstr)
| JNum (n : jsnum).

#[export] Instance jsval_eq_dec : EqDecision jsval.
Proof. unfold EqDecision, Decision. decide equality; apply decide; apply _. Defined.

(** [String(v)] and template-literal interpolation. *)
Definition ToString (v : jsval) : jsstr :=
  match v with
  | JUndef => js "undefined"
  | JNull => js "null"
  | JStr s => s
  | JNum n => num_to_string n
  end.

(** ToBoolean: what [!v] and [v || w] test. *)
Definition truthy (v : jsval) : bool :=
  match v with
  | JUndef | JNull => false
  | JStr s => bool_decide (s <> [])
  | JNum NaN => false
  | JNum (Fin q) => negb (Qeq_bool q 0)
  | JNum _ => true
  end.

(** [v === w] (IsStrictlyEqual). *)
Definition strict_eq (v w : jsval) : bool :=
  match v, w with
  | JNum NaN, _ | _, JNum NaN => false
  | _, _ => bool_decide (v = w)
  end.

(** ** Lemmas: decimal digits *)

Lemma digit_unit_spec d :
  (0 <= d < 10)%Z -> is_digit (Z.to_N d + 48) = true /\ digit_val (Z.to_N d + 48) = d.
Proof.
  intros Hd. unfold is_digit, digit_val. split; [apply bool_decide_eq_true|]; lia.
Qed.

Lemma digits_single d :
  (0 <= d < 10)%Z ->
  [(Z.to_N d + 48)%N] <> [] /\ all_digits [(Z.to_N d + 48)%N] = true /\
  digits_value [(Z.to_N d + 48)%N] = d.
Proof.
  intros Hd. destruct (digit_unit_spec d Hd) as [Hc Hv].
  split_and!; [done | by simpl; rewrite Hc | unfold digits_value; simpl; lia].
Qed.

Lemma digits_aux_S f n acc :
  digits_aux (S f) n acc =
  if decide (n < 10)%Z then (Z.to_N n + 48)%N :: acc
  else digits_aux f (n / 10) ((Z.to_N (n mod 10) + 48)%N :: acc).
Proof. reflexivity. Qed.

Lemma digits_aux_spec f n acc :
  (0 <= n < 10 ^ Z.of_nat (S f))%Z ->
  exists ds, digits_aux (S f) n acc = ds ++ acc /\ ds <> [] /\
             all_digits ds = true /\ digits_value ds = n.
Proof.
  revert n acc. induction f as [|f IH]; intros n acc Hn; rewrite digits_aux_S.
  - case_decide; [|lia]. eexists [_]. split; [done|]. apply digits_single; lia.
  - case_decide; [eexists [_]; split; [done|]; apply digits_single; lia|].
    destruct (digits_single (n mod 10)) as (_ & Hd & Hv); [apply Z.mod_pos_bound; lia|].
    destruct (IH (n / 10)%Z ((Z.to_N (n mod 10) + 48)%N :: acc)) as (ds & Heq & Hne & Hall & Hval).
    { rewrite Nat2Z.inj_succ, Z.pow_succ_r in Hn by lia. split.
      - apply Z.div_pos; lia.
      - apply Z.div_lt_upper_bound; lia. }
    exists (ds ++ [(Z.to_N (n mod 10) + 48)%N]).
    rewrite Heq, <- app_assoc. split_and!; try done.
    + by destruct ds.
    + unfold all_digits in *. rewrite forallb_app. by rewrite Hall, Hd.
    + rewrite digits_value_app, Hval, Hv. simpl. pose proof (Z.div_mod n 10). lia.
Qed.

(** The fuel of [Z_to_digits], one more than [log2 n], exceeds the number
    of decimal digits of [n]. *)
Lemma Z_to_digits_fuel_bound n :
  (0 <= n)%Z -> (n < 10 ^ Z.of_nat (S (Z.to_nat (Z.log2 n))))%Z.
Proof.
  intros Hn. rewrite Nat2Z.inj_succ, Z2Nat.id by apply Z.log2_nonneg.
  destruct (Z.eq_dec n 0) as [->|Hn0]; [simpl; lia|].
  destruct (Z.log2_spec n) as [_ Hlt]; [lia|].
  eapply Z.lt_le_trans; [exact Hlt|]. apply Z.pow_le_mono_l. lia.
Qed.

(** [Z_to_digits n] is a non-empty string of digits whose value is [n]. *)
Lemma Z_to_digits_spec n :
  (0 <= n)%Z ->
  Z_to_digits n <> [] /\ all_digits (Z_to_digits n) = true /\ digits_value (Z_to_digits n) = n.
Proof.
  intros Hn. unfold Z_to_digits.
  destruct (digits_aux_spec (Z.to_nat (Z.log2 n)) n []) as (ds & -> & H).
  - split; [done | by apply Z_to_digits_fuel_bound].
  - by rewrite app_nil_r.
Qed.

(** ** Lemmas: [Number] on digit strings *)

Lemma span_all p s : forallb p s = true -> span p s = (s, []).
Proof.
  induction s as [|c s IH]; simpl; [done|]. intros [-> Hs]%andb_true_iff.
  by rewrite IH.
Qed.

Lemma inject_Z_mul_one v : inject_Z v * 1 = inject_Z v.
Proof. unfold Qmult, inject_Z. simpl. by rewrite Z.mul_1_r. Qed.

Lemma Qred_inject_Z_eq q z : q == inject_Z z -> Qred q = inject_Z z.
Proof. intros H. rewrite (Qred_complete _ _ H). apply inject_Z_Qred. Qed.

Lemma Qle_bool_Z a b : Qle_bool (inject_Z a) (inject_Z b) = (a <=? b)%Z.
Proof.
  destruct (Qle_bool _ _) eqn:E; symmetry.
  - apply Qle_bool_iff in E. rewrite <- Zle_Qle in E. by apply Z.leb_le.
  - apply Z.leb_gt. destruct (Z.le_gt_cases a b) as [H|H]; [|lia].
    rewrite Zle_Qle, <- Qle_bool_iff in H. congruence.
Qed.

Lemma round_decimal_Z z : (0 <= z < 10 ^ 308)%Z -> round_decimal (inject_Z z) = jsint z.
Proof.
  intros Hz. unfold round_decimal, overflow_threshold.
  assert (10 ^ 308 < 2 ^ 1024 - 2 ^ 970)%Z by reflexivity.
  rewrite Qle_bool_Z. replace (- inject_Z z) with (inject_Z (- z)) by reflexivity.
  rewrite Qle_bool_Z. rewrite !(proj2 (Z.leb_gt _ _)) by lia.
  unfold jsint. by rewrite inject_Z_Qred.
Qed.

Lemma non_decimal_digits s : all_digits s = true -> non_decimal s = None.
Proof.
  intros Hs. unfold non_decimal.
  destruct s as [|c [|x r]]; [done | done |]. simpl in Hs.
  apply andb_true_iff in Hs as [_ [Hx _]%andb_true_iff].
  unfold is_digit in Hx. apply bool_decide_eq_true in Hx.
  repeat (case_decide; [lia|]); done.
Qed.

Lemma parse_unsigned_digits s :
  s <> [] -> all_digits s = true -> (digits_value s < 10 ^ 308)%Z ->
  parse_unsigned s = Some (jsint (digits_value s)).
Proof.
  intros Hne Hs Hv. unfold parse_unsigned. rewrite decide_False.
  2: { intros ->. discriminate Hs. }
  unfold parse_unsigned_decimal. rewrite (span_all _ _ Hs). simpl.
  rewrite decide_False by naive_solver. rewrite app_nil_r. simpl.
  rewrite inject_Z_mul_one, round_decimal_Z; [done|].
  pose proof (digits_value_bounds s Hs). lia.
Qed.

(** [Number(ds)] of a string of decimal digits is its decimal value. *)

(** [Number(ds)] of a string of decimal digits is its decimal value. *)
Lemma ToNumber_digits s :
  s <> [] -> all_digits s = true -> (digits_value s < 10 ^ 308)%Z ->
  ToNumber s = jsint (digits_value s).
Proof.
  intros Hne Hs Hv. unfold ToNumber. rewrite trim_digits, decide_False by done.
  rewrite non_decimal_digits by done.
  destruct s as [|c r]; [done|]. pose proof Hs as Hs'.
  simpl in Hs'. apply andb_true_iff in Hs' as [Hc _].
  unfold is_digit in Hc. apply bool_decide_eq_true in Hc.
  rewrite !decide_False by (unfold u_minus, u_plus; lia).
  by rewrite parse_unsigned_digits.
Qed.

Lemma minus_digits_free s :
  all_digits s = true -> Forall (fun c => is_ws c = false) (u_minus :: s).
Proof.
  intros Hs. constructor; [reflexivity|].
  eapply Forall_impl; [by apply all_digits_Forall|]. apply is_digit_not_ws.
Qed.

Lemma num_to_string_int z :
  (Z.abs z < 10 ^ 21)%Z ->
  num_to_string (jsint z) =
  (if decide (z < 0)%Z then [u_minus] else []) ++ Z_to_digits (Z.abs z).
Proof. intros Hz. simpl. by rewrite decide_True by (split; [done | exact Hz]). Qed.

Lemma ToNumber_neg_digits s :
  s <> [] -> all_digits s = true -> (digits_value s < 10 ^ 308)%Z ->
  ToNumber (u_minus :: s) = jsint (- digits_value s).
Proof.
  intros Hne Hs Hv. unfold ToNumber.
  rewrite trim_free by (by apply minus_digits_free). rewrite decide_False by discriminate.
  destruct s as [|d ds]; [contradiction|].
  replace (non_decimal (u_minus :: d :: ds)) with (@None jsnum).
  2: { unfold non_decimal. repeat case_decide; try reflexivity.
       all: match goal with H : u_minus = u_zero |- _ => discriminate H end. }
  rewrite decide_True by reflexivity. rewrite parse_unsigned_digits by done.
  cbn [from_option]. unfold num_neg, jsint. f_equal.
  by rewrite Qred_opp, inject_Z_Qred.
Qed.

(** ** Lemmas: arithmetic on integers *)

Lemma num_add_int a b : num_add (jsint a) (jsint b) = jsint (a + b).
Proof. unfold num_add, jsint. by rewrite <- inject_Z_plus, inject_Z_Qred. Qed.

Lemma num_mul_int a b : num_mul (jsint a) (jsint b) = jsint (a * b).
Proof. unfold num_mul, jsint. by rewrite <- inject_Z_mult, inject_Z_Qred. Qed.

Lemma floor_div_int a b :
  (0 < b)%Z -> math_floor (num_div (jsint a) (jsint b)) = jsint (a / b).
Proof.
  intros Hb. unfold num_div, jsint. replace (Qeq_bool (inject_Z b) 0) with false.
  2: { symmetry. apply not_true_iff_false. intros H%Qeq_bool_iff.
       unfold Qeq in H. simpl in H. lia. }
  cbn [math_floor]. unfold jsint. rewrite Zdiv_Qdiv. do 2 f_equal. apply Qfloor_comp, Qred_correct.
Qed.

Lemma math_min_int a b : math_min (jsint a) (jsint b) = jsint (Z.min a b).
Proof.
  unfold math_min, jsint. simpl. rewrite Qle_bool_Z.
  destruct (Z.leb_spec a b); f_equal; f_equal; lia.
Qed.

#[export] Hint Rewrite num_add_int num_mul_int math_min_int : js_simpl.

Lemma ToNumber_field s : digit_field s = true -> ToNumber s = jsint (digits_value s).
Proof.
  intros (Hne & Hs & Hv)%digit_field_spec. apply ToNumber_digits; try done.
  assert (10 ^ 300 < 10 ^ 308)%Z by reflexivity. lia.
Qed.

Lemma math_min_le x y : math_min x y = NaN \/ num_leb (math_min x y) y = true.
Proof.
  destruct x, y; simpl; auto; try (right; apply Qle_bool_iff, Qle_refl).
  destruct (Qle_bool q q0) eqn:E; right; [exact E | apply Qle_bool_iff, Qle_refl].
Qed.
