(* ===== verification/Minutes.v ===== *)
(** * [convertToMinutes] (src/cleaner.js, lines 11-25)

    The time spent on an exercise, ["H:M:S"] or ["M:S"], in whole minutes
    capped at 60. The function receives the raw cell [row.timeSpent]: a
    string, or [undefined] when the row has no such cell. *)

From S2P Require Import Prelude JSString JSNumber.
From Stdlib Require Import QArith.

(** [h * 60 + m + Math.floor(s / 60)] and [m + Math.floor(s / 60)]
    (lines 16-22), on the numbers [Number] gives for the pieces. *)
Definition minutes_of_parts (parts : list jsnum) : jsnum :=
  match parts with
  | [h; m; s] => num_add (num_add (num_mul h (jsint 60)) m) (math_floor (num_div s (jsint 60)))
  | [m; s] => num_add m (math_floor (num_div s (jsint 60)))
  | _ => jsint 0
  end.

(** Lines 11-25. A falsy argument gives 0; a truthy one that is not a
    string has no [split] method, and the call throws a [TypeError]. *)
Definition convertToMinutes (timeString : jsval) : throws jsnum :=
  if negb (truthy timeString) then Ok (jsint 0)
  else match timeString with
       | JStr s =>
           let parts := map ToNumber (split_on u_colon s) in
           Ok (math_min (minutes_of_parts parts) (jsint 60))
       | _ => Throw TypeError
       end.

(** ** Lemmas *)

Lemma colon_not_digit : is_digit u_colon = false.
Proof. reflexivity. Qed.

Lemma split_on_fields sep fs :
  is_digit sep = false -> Forall (fun f => digit_field f = true) fs -> fs <> [] ->
  split_on sep (join_on sep fs) = fs.
Proof.
  intros Hsep Hfs Hne. apply split_on_join; [done|].
  eapply Forall_impl; [exact Hfs|]. intros f Hf.
  apply all_digits_not_elem; [done|]. by destruct (digit_field_spec f Hf) as (_ & Hd & _).
Qed.

Lemma map_ToNumber_fields fs :
  Forall (fun f => digit_field f = true) fs ->
  map ToNumber fs = map (fun f => jsint (digits_value f)) fs.
Proof.
  induction 1 as [|f fs Hf _ IH]; simpl; [done|]. by rewrite ToNumber_field, IH.
Qed.

Lemma join_fields_truthy fs :
  Forall (fun f => digit_field f = true) fs -> fs <> [] ->
  truthy (JStr (join_on u_colon fs)) = true.
Proof.
  intros Hfs Hne. destruct Hfs as [|f fs Hf _]; [done|].
  apply digit_field_spec in Hf as (Hf & _). simpl. apply bool_decide_eq_true.
  destruct f; [done|]. destruct fs; discriminate.
Qed.

(** [convertToMinutes] of colon-separated digit fields: the source's
    arithmetic on the fields' decimal values. *)
Lemma convertToMinutes_fields fs :
  Forall (fun f => digit_field f = true) fs -> fs <> [] ->
  convertToMinutes (JStr (join_on u_colon fs)) =
  Ok (math_min (minutes_of_parts (map (fun f => jsint (digits_value f)) fs)) (jsint 60)).
Proof.
  intros Hfs Hne. unfold convertToMinutes.
  rewrite join_fields_truthy by done. simpl negb. cbv iota.
  by rewrite split_on_fields, map_ToNumber_fields by done.
Qed.

Lemma minutes_hms_int h m s :
  math_min (minutes_of_parts [jsint h; jsint m; jsint s]) (jsint 60) =
  jsint (Z.min (h * 60 + m + s / 60) 60).
Proof. unfold minutes_of_parts. rewrite floor_div_int by lia. by autorewrite with js_simpl. Qed.

Lemma minutes_ms_int m s :
  math_min (minutes_of_parts [jsint m; jsint s]) (jsint 60) = jsint (Z.min (m + s / 60) 60).
Proof. unfold minutes_of_parts. rewrite floor_div_int by lia. by autorewrite with js_simpl. Qed.

(** ** Properties *)

(** C14: on ["H:M:S"] with digit fields, [convertToMinutes] returns
    [min(H*60 + M + floor(S/60), 60)], as line 18 and line 24 compute. *)
Theorem convertToMinutes_hms h m s :
  digit_field h = true -> digit_field m = true -> digit_field s = true ->
  convertToMinutes (JStr (h ++ u_colon :: m ++ u_colon :: s)) =
  Ok (jsint (Z.min (digits_value h * 60 + digits_value m + digits_value s / 60) 60)).
Proof.
  intros Hh Hm Hs.
  change (h ++ u_colon :: m ++ u_colon :: s) with (join_on u_colon [h; m; s]).
  rewrite convertToMinutes_fields by (repeat constructor; done).
  by rewrite <- minutes_hms_int.
Qed.

(** Witness: ["01:02:30"] gives [min(62, 60) = 60]. *)
Lemma convertToMinutes_hms_witness :
  convertToMinutes (JStr (js "01" ++ u_colon :: js "02" ++ u_colon :: js "30")) = Ok (jsint 60).
Proof. rewrite (convertToMinutes_hms (js "01") (js "02") (js "30")) by reflexivity. reflexivity. Defined.

(** C15: on ["M:S"] with digit fields, [convertToMinutes] returns
    [min(M + floor(S/60), 60)] (lines 19-21 and 24). *)
Theorem convertToMinutes_ms m s :
  digit_field m = true -> digit_field s = true ->
  convertToMinutes (JStr (m ++ u_colon :: s)) =
  Ok (jsint (Z.min (digits_value m + digits_value s / 60) 60)).
Proof.
  intros Hm Hs. change (m ++ u_colon :: s) with (join_on u_colon [m; s]).
  rewrite convertToMinutes_fields by (repeat constructor; done).
  by rewrite <- minutes_ms_int.
Qed.

(** Witness: ["5:30"] gives 5. *)
Lemma convertToMinutes_ms_witness :
  convertToMinutes (JStr (js "5" ++ u_colon :: js "30")) = Ok (jsint 5).
Proof. rewrite (convertToMinutes_ms (js "5") (js "30")) by reflexivity. reflexivity. Defined.

Lemma digit_fields_nonneg fs :
  Forall (fun f => digit_field f = true) fs -> Forall (fun f => 0 <= digits_value f)%Z fs.
Proof.
  intros H. eapply Forall_impl; [exact H|]. intros f Hf.
  apply digit_field_spec in Hf as (_ & _ & Hv). lia.
Qed.

(** C16: whatever the number of colon-separated digit fields, the result is
    an integer number of minutes between 0 and 60; one field, or four and
    more, give 0 (line 14 and the fall-through of lines 16-22). *)
Theorem convertToMinutes_fields_range fs :
  Forall (fun f => digit_field f = true) fs -> fs <> [] ->
  exists k, convertToMinutes (JStr (join_on u_colon fs)) = Ok (jsint k) /\ (0 <= k <= 60)%Z.
Proof.
  intros Hfs Hne. rewrite convertToMinutes_fields by done.
  pose proof (digit_fields_nonneg _ Hfs) as Hpos.
  destruct fs as [|a [|b [|c [|d fs]]]]; try done; cbn [map];
    repeat match goal with H : Forall _ (_ :: _) |- _ => invc H end;
    [| rewrite minutes_ms_int | rewrite minutes_hms_int |];
    eexists; (split; [reflexivity|]);
    try (pose proof (Z.div_pos (digits_value b) 60 ltac:(lia) ltac:(lia)));
    try (pose proof (Z.div_pos (digits_value c) 60 ltac:(lia) ltac:(lia))); lia.
Qed.

(** Witness: ["00:10:00"] gives 10. *)
Lemma convertToMinutes_fields_range_witness :
  exists k, convertToMinutes (JStr (join_on u_colon [js "00"; js "10"; js "00"])) = Ok (jsint k) /\
            (0 <= k <= 60)%Z.
Proof. apply convertToMinutes_fields_range; [repeat constructor | discriminate]. Defined.

Lemma minutes_of_parts_other ns :
  length ns <> 2%nat -> length ns <> 3%nat -> minutes_of_parts ns = jsint 0.
Proof. destruct ns as [|a [|b [|c [|d ns]]]]; cbn; intros; done || lia. Qed.

(** C17: the fall-through of lines 16-22: on one colon-separated digit
    field, or on four and more, [convertToMinutes] returns 0, as the spec
    says of "any other field count" (section 4.1, step 3). *)
Theorem convertToMinutes_other_counts fs :
  Forall (fun f => digit_field f = true) fs -> fs <> [] ->
  length fs <> 2%nat -> length fs <> 3%nat ->
  convertToMinutes (JStr (join_on u_colon fs)) = Ok (jsint 0).
Proof.
  intros Hfs Hne H2 H3. rewrite convertToMinutes_fields by done.
  rewrite minutes_of_parts_other by (rewrite length_map; done). by rewrite math_min_int.
Qed.

Lemma convertToMinutes_other_counts_witness :
  convertToMinutes (JStr (js "1:2:3:4")) = Ok (jsint 0).
Proof.
  apply (convertToMinutes_other_counts [js "1"; js "2"; js "3"; js "4"]);
    [repeat constructor | discriminate | discriminate | discriminate].
Defined.
Lemma convertToMinutes_le60 v n :
  convertToMinutes v = Ok n -> n = NaN \/ num_leb n (jsint 60) = true.
Proof.
  unfold convertToMinutes. destruct (truthy v); simpl.
  - destruct v; intros H; invc H. apply math_min_le.
  - intros H; invc H. right. reflexivity.
Qed.

(** C18: whatever the argument, a returned value is NaN or at most 60:
    the cap of line 24 holds for every input. *)
Theorem convertToMinutes_capped v n :
  convertToMinutes v = Ok n -> n = NaN \/ num_leb n (jsint 60) = true.
Proof. intros; eapply convertToMinutes_le60; eauto. Qed.

(** Witness: ["90:00"] is capped at 60. *)
Lemma convertToMinutes_capped_witness :
  convertToMinutes (JStr (js "90:00")) = Ok (jsint 60) /\
  (jsint 60 = NaN \/ num_leb (jsint 60) (jsint 60) = true).
Proof.
  split; [reflexivity|]. apply (convertToMinutes_capped (JStr (js "90:00"))). reflexivity.
Defined.


(** C26: a first field that [Number] does not read as a number, before a
    digit field, makes the whole result [NaN], which the TSV output writes
    as the text ["NaN"]. *)
Theorem convertToMinutes_nan_field f s :
  u_colon ∉ f -> ToNumber f = NaN -> digit_field s = true ->
  convertToMinutes (JStr (f ++ u_colon :: s)) = Ok NaN.
Proof.
  intros Hf HN Hs.
  change (f ++ u_colon :: s) with (join_on u_colon [f; s]).
  unfold convertToMinutes. rewrite split_on_join.
  - cbn [map]. rewrite HN. destruct f; reflexivity.
  - discriminate.
  - repeat constructor; [done|]. apply all_digits_not_elem; [done|]. by apply digit_field_spec.
Qed.

(** Witness: ["ab:10"] gives [NaN]. *)
Lemma convertToMinutes_nan_field_witness :
  convertToMinutes (JStr (js "ab" ++ u_colon :: js "10")) = Ok NaN.
Proof. apply convertToMinutes_nan_field; [vm_compute; set_solver | reflexivity | reflexivity]. Defined.

Lemma convertToMinutes_throw_iff v :
  convertToMinutes v = Throw TypeError <-> exists n, v = JNum n /\ truthy (JNum n) = true.
Proof.
  unfold convertToMinutes. split.
  - destruct (truthy v) eqn:E; simpl; [|discriminate]. destruct v; try discriminate; eauto.
  - intros (n & -> & ->). reflexivity.
Qed.

