(* ===== verification/Regex.v ===== *)
(** * Regular expressions: [RegExp.prototype.test] (src/cleaner.js, lines 31-32)

    The fragment of ECMAScript patterns that [cleanEmail] uses: the
    assertions [^] and [$] (without the [m] flag), single characters and
    escapes, character classes [[...]] and [[^...]], and the greedy
    quantifier [+] on one of these atoms. [m] is the backtracking matcher
    of ECMA-262 22.2.2 for this fragment: a continuation-passing matcher
    whose [+] first tries one more repetition, then the rest of the
    pattern. [regex_test] is RegExpBuiltinExec for a pattern without the
    [g] and [y] flags: it tries the match at every index from 0 to the
    length of the input. [pmatch] is the declarative semantics; the two
    are proved equivalent. *)

From S2P Require Import Prelude JSString.

Inductive atom :=
| AChar (c : N)
| AClass (negated : bool) (cs : list N).

Inductive term :=
| TBol
| TEol
| TAtom (a : atom)
| TPlus (a : atom).

Definition pattern := list term.

Definition atom_ok (a : atom) (c : N) : bool :=
  match a with
  | AChar d => bool_decide (c = d)
  | AClass neg cs => xorb neg (bool_decide (c ∈ cs))
  end.

(** The rest of a [+] loop: try one more repetition, then the
    continuation [k] at the current position. *)
Fixpoint star_m (ok : N -> bool) (k : nat -> jsstr -> bool) (i : nat) (rest : jsstr) : bool :=
  match rest with
  | c :: rest' => (ok c && star_m ok k (S i) rest') || k i rest
  | [] => k i rest
  end.

(** [m p i rest]: the pattern [p] matches at index [i], where [rest] is
    the input from index [i] on; the final continuation succeeds. *)
Fixpoint m (p : pattern) (i : nat) (rest : jsstr) : bool :=
  match p with
  | [] => true
  | TBol :: p' => bool_decide (i = 0) && m p' i rest
  | TEol :: p' => bool_decide (rest = []) && m p' i rest
  | TAtom a :: p' =>
      match rest with
      | c :: r => atom_ok a c && m p' (S i) r
      | [] => false
      end
  | TPlus a :: p' =>
      match rest with
      | c :: r => atom_ok a c && star_m (atom_ok a) (m p') (S i) r
      | [] => false
      end
  end.

Fixpoint test_from (p : pattern) (i : nat) (rest : jsstr) : bool :=
  m p i rest || match rest with
                | _ :: r => test_from p (S i) r
                | [] => false
                end.

(** [re.test(s)]. *)
Definition regex_test (p : pattern) (s : jsstr) : bool := test_from p 0 s.

(** ** Declarative semantics *)

Inductive pmatch : pattern -> nat -> jsstr -> Prop :=
| pm_nil i rest : pmatch [] i rest
| pm_bol p rest : pmatch p 0 rest -> pmatch (TBol :: p) 0 rest
| pm_eol p i : pmatch p i [] -> pmatch (TEol :: p) i []
| pm_atom a p i c rest :
    atom_ok a c = true -> pmatch p (S i) rest -> pmatch (TAtom a :: p) i (c :: rest)
| pm_plus a p i w rest :
    w <> [] -> Forall (fun c => atom_ok a c = true) w ->
    pmatch p (i + length w) rest -> pmatch (TPlus a :: p) i (w ++ rest).

#[export] Hint Constructors pmatch : js.

(** ** The matcher decides the declarative semantics *)

Section Star.
Variable ok : N -> bool.
Variable k : nat -> jsstr -> bool.
Variable P : nat -> jsstr -> Prop.
Hypothesis k_spec : forall j r, k j r = true <-> P j r.

Lemma star_m_spec i rest :
  star_m ok k i rest = true <->
  exists w r, rest = w ++ r /\ Forall (fun c => ok c = true) w /\ P (i + length w) r.
Proof using k_spec.
  revert i. induction rest as [|c rest IH]; intros i; simpl.
  - rewrite k_spec. split.
    + intros HP. exists [], []. rewrite Nat.add_0_r. auto.
    + intros (w & r & Hw & _ & HP). destruct w; [|discriminate]. simpl in *.
      subst. by rewrite Nat.add_0_r in HP.
  - rewrite orb_true_iff, andb_true_iff, IH, k_spec. split.
    + intros [[Hc (w & r & -> & Hw & HP)] | HP].
      * exists (c :: w), r. simpl. rewrite Nat.add_succ_r. auto.
      * exists [], (c :: rest). rewrite Nat.add_0_r. auto.
    + intros ([|c' w] & r & Heq & Hw & HP); simpl in *.
      * right. subst. by rewrite Nat.add_0_r in HP.
      * invc Heq. invc Hw. left. split; [done|].
        exists w, r. rewrite Nat.add_succ_r in HP. auto.
Qed.
End Star.

Lemma pmatch_plus_inv a p i s :
  pmatch (TPlus a :: p) i s ->
  exists w r, s = w ++ r /\ w <> [] /\ Forall (fun c => atom_ok a c = true) w /\
              pmatch p (i + length w) r.
Proof. intros H. inversion H; subst. eauto 10. Qed.

Lemma pmatch_char_inv c p i s :
  pmatch (TAtom (AChar c) :: p) i s -> exists r, s = c :: r /\ pmatch p (S i) r.
Proof.
  intros H. inversion H as [| | |a p' i' c' r Hc Hp|]; subst.
  unfold atom_ok in Hc. apply bool_decide_eq_true in Hc. subst. eauto.
Qed.

Lemma m_spec p i rest : m p i rest = true <-> pmatch p i rest.
Proof.
  revert i rest. induction p as [|t p IH]; intros i rest.
  - split; [constructor | done].
  - destruct t as [| |a|a]; simpl.
    + rewrite andb_true_iff, bool_decide_eq_true, IH. split.
      * intros [-> H]. by constructor.
      * intros H. by invc H.
    + rewrite andb_true_iff, bool_decide_eq_true, IH. split.
      * intros [-> H]. by constructor.
      * intros H. by invc H.
    + destruct rest as [|c rest].
      * split; [done | intros H; invc H].
      * rewrite andb_true_iff, IH. split.
        -- intros [Hc H]. by constructor.
        -- intros H. by invc H.
    + destruct rest as [|c rest].
      * split; [done|]. intros H. invc H. by destruct w.
      * rewrite andb_true_iff, (star_m_spec _ _ (pmatch p)) by (intros; apply IH). split.
        -- intros [Hc (w & r & -> & Hw & HP)].
           apply (pm_plus a p i (c :: w) r); [done | by constructor |].
           simpl. by rewrite Nat.add_succ_r.
        -- intros (w & r & Heq & Hne & Hw & HP)%pmatch_plus_inv.
           destruct w as [|c' w]; [done|]. simpl in Heq. injection Heq as Hc' Hr. subst.
           apply Forall_cons in Hw as [Hc Hw].
           split; [done|]. exists w, r. cbn [length] in HP. rewrite Nat.add_succ_r in HP. auto.
Qed.

Lemma test_from_spec p i rest :
  test_from p i rest = true <->
  exists j, j <= length rest /\ pmatch p (i + j) (drop j rest).
Proof.
  revert i. induction rest as [|c rest IH]; intros i; simpl.
  - rewrite orb_false_r, m_spec. split.
    + intros H. exists 0. rewrite Nat.add_0_r. auto.
    + intros (j & Hj & H). assert (j = 0) as -> by lia. by rewrite Nat.add_0_r in H.
  - rewrite orb_true_iff, m_spec, IH. split.
    + intros [H | (j & Hj & H)].
      * exists 0. rewrite Nat.add_0_r. split; [lia | done].
      * exists (S j). rewrite Nat.add_succ_r. split; [lia | done].
    + intros ([|j] & Hj & H).
      * left. by rewrite Nat.add_0_r in H.
      * right. exists j. rewrite Nat.add_succ_r in H. split; [lia | done].
Qed.

(** A pattern that starts with [^] can only match at index 0. *)
Lemma regex_test_anchored p s :
  regex_test (TBol :: p) s = true <-> pmatch p 0 s.
Proof.
  unfold regex_test. rewrite test_from_spec. split.
  - intros ([|j] & _ & H); simpl in H; invc H. done.
  - intros H. exists 0. split; [lia|]. by constructor.
Qed.
