(* ===== verification/Email.v ===== *)
(** * [cleanEmail] (src/cleaner.js, lines 28-33)

    Normalises [row.teacherEmail] (first comma to a dot, trim, lower case)
    and keeps it when it matches [/^[^@]+@[^@]+\.[^@]+$/]. The pattern is
    the [Regex] term [email_re]; [email_shape] says in plain terms which
    strings it accepts, and the two are proved equivalent. The case
    mapping is the [CaseMapping] interface of [JSString]. *)

From S2P Require Import Prelude JSString JSNumber Regex.

(** [[^@]] *)
Definition not_at : atom := AClass true [u_at].

(** [/^[^@]+@[^@]+\.[^@]+$/] (line 31). *)
Definition email_re : pattern :=
  [TBol; TPlus not_at; TAtom (AChar u_at); TPlus not_at; TAtom (AChar u_dot); TPlus not_at; TEol].

(** The strings the pattern accepts: a non-empty local part, one ['@'], and a
    domain made of two non-empty parts around a ['.'], none holding an ['@']. *)
Definition email_shape (s : jsstr) : Prop :=
  exists l d1 d2, s = l ++ u_at :: d1 ++ u_dot :: d2 /\
    l <> [] /\ d1 <> [] /\ d2 <> [] /\ u_at ∉ l /\ u_at ∉ d1 /\ u_at ∉ d2.

Section CleanEmail.
Context `{CaseMapping}.

(** [email.replace(',', '.').trim().toLowerCase()] (line 30). *)
Definition normalize_email (e : jsstr) : jsstr :=
  toLowerCase (trim (replace_first u_comma u_dot e)).

(** Lines 28-33; [None] is [null]. *)
Definition cleanEmail (email : jsval) : option jsstr :=
  match email with
  | JStr e =>
      let cleaned := normalize_email e in
      if regex_test email_re cleaned then Some cleaned else None
  | _ => None
  end.
End CleanEmail.

(** ** The pattern *)

Lemma not_at_ok c : atom_ok not_at c = true <-> c <> u_at.
Proof. unfold not_at, atom_ok. case_bool_decide; simpl; set_solver. Qed.

Lemma not_at_Forall w : Forall (fun c => atom_ok not_at c = true) w <-> u_at ∉ w.
Proof.
  rewrite Forall_forall. setoid_rewrite not_at_ok. split.
  - intros Hw Hin. by apply (Hw u_at).
  - intros Hw x Hx ->. contradiction.
Qed.

Lemma email_re_shape s : regex_test email_re s = true <-> email_shape s.
Proof.
  unfold email_re. rewrite regex_test_anchored. split.
  - intros H.
    apply pmatch_plus_inv in H as (l & r1 & -> & Hl & Hla & H).
    apply pmatch_char_inv in H as (r2 & -> & H).
    apply pmatch_plus_inv in H as (d1 & r3 & -> & Hd1 & Hd1a & H).
    apply pmatch_char_inv in H as (r4 & -> & H).
    apply pmatch_plus_inv in H as (d2 & r5 & -> & Hd2 & Hd2a & H).
    invc H. rewrite app_nil_r.
    apply not_at_Forall in Hla, Hd1a, Hd2a. exists l, d1, d2. auto 10.
  - intros (l & d1 & d2 & -> & Hl & Hd1 & Hd2 & Hla & Hd1a & Hd2a).
    apply not_at_Forall in Hla, Hd1a, Hd2a.
    apply pm_plus; [done | done |].
    apply pm_atom; [by apply bool_decide_eq_true |].
    apply pm_plus; [done | done |].
    apply pm_atom; [by apply bool_decide_eq_true |].
    rewrite <- (app_nil_r d2). apply pm_plus; [done | done |].
    by repeat constructor.
Qed.

(** C12: the regular expression of line 31, [/^[^@]+@[^@]+\.[^@]+$/],
    accepts exactly the strings [l ++ "@" ++ d1 ++ "." ++ d2] whose three
    parts are non-empty and free of ['@']. *)
Theorem email_re_spec s : regex_test email_re s = true <-> email_shape s.
Proof. intros; eapply email_re_shape; eauto. Qed.

(** [email_shape] is decided by running the pattern. *)
#[export] Instance email_shape_dec s : Decision (email_shape s).
Proof.
  destruct (regex_test email_re s) eqn:E; [left | right]; rewrite <- email_re_shape; congruence.
Defined.

(** Exactly one ['@']: the split at the first ['@'] is the only one. *)
Lemma first_at_unique l r l' r' :
  l ++ u_at :: r = l' ++ u_at :: r' -> u_at ∉ l -> u_at ∉ l' -> l = l' /\ r = r'.
Proof.
  revert l'. induction l as [|x l IH]; intros [|x' l'] Heq Hl Hl'; simpl in *.
  - by invc Heq.
  - invc Heq. set_solver.
  - invc Heq. set_solver.
  - invc Heq. destruct (IH l') as [-> ->]; [done | set_solver | set_solver | done].
Qed.

Lemma email_shape_one_at s :
  email_shape s -> exists l r, s = l ++ u_at :: r /\ u_at ∉ l /\ u_at ∉ r.
Proof.
  intros (l & d1 & d2 & -> & _ & _ & _ & Hl & Hd1 & Hd2).
  exists l, (d1 ++ u_dot :: d2). split_and!; [done | done | set_solver].
Qed.

(** ** Normalisation around the ['@'] *)

Lemma replace_first_around pat rep x a b :
  x <> pat ->
  replace_first pat rep (a ++ x :: b) =
  replace_first pat rep a ++ x :: (if decide (pat ∈ a) then b else replace_first pat rep b).
Proof.
  intros Hx. induction a as [|c a IH]; simpl.
  - repeat case_decide; subst; try done; set_solver.
  - destruct (decide (c = pat)) as [->|Hc].
    + by rewrite decide_True by set_solver.
    + rewrite IH. simpl. f_equal. f_equal. f_equal.
      destruct (decide (pat ∈ a)), (decide (pat ∈ c :: a)); set_solver.
Qed.

Lemma is_ws_at : is_ws u_at = false.
Proof. reflexivity. Qed.

Section Normalize.
Context `{CaseMapping}.

(** The normalised address, split at its first ['@']. *)
Lemma normalize_email_at a b :
  normalize_email (a ++ u_at :: b) =
  toLowerCase (trim_start (replace_first u_comma u_dot a)) ++ u_at ::
  toLowerCase (trim_end (if decide (u_comma ∈ a) then b else replace_first u_comma u_dot b)).
Proof.
  unfold normalize_email. rewrite replace_first_around by discriminate.
  by rewrite trim_split_nonws, toLowerCase_at by apply is_ws_at.
Qed.

Lemma at_free_replace s : u_at ∉ s -> u_at ∉ replace_first u_comma u_dot s.
Proof. rewrite elem_of_replace_first; [done | discriminate | discriminate]. Qed.

Lemma at_free_trim_start s : u_at ∉ s -> u_at ∉ trim_start s.
Proof. destruct (trim_start_suffix s) as [p Hp]. rewrite Hp at 1. set_solver. Qed.

Lemma at_free_trim s : u_at ∉ s -> u_at ∉ trim s.
Proof. intros Hs Hin. by apply elem_of_trim in Hin. Qed.

Lemma elem_trim_end_nonws x s : is_ws x = false -> x ∈ s -> x ∈ trim_end s.
Proof.
  intros Hx (p & q & ->)%list_elem_of_split. rewrite trim_end_app_nonws by done.
  set_solver.
Qed.

Lemma elem_toLowerCase_at s : u_at ∈ s -> u_at ∈ toLowerCase s.
Proof. intros (p & q & ->)%list_elem_of_split. rewrite toLowerCase_at. set_solver. Qed.

Lemma at_free_normalize e : u_at ∉ e -> u_at ∉ normalize_email e.
Proof. intros. by apply toLowerCase_at_free, at_free_trim, at_free_replace. Qed.

Lemma normalize_email_ascii e :
  Forall (fun c => c < 128)%N e ->
  normalize_email e = map ascii_lower (trim (replace_first u_comma u_dot e)).
Proof.
  intros He. unfold normalize_email. apply toLowerCase_ascii.
  destruct (trim_infix (replace_first u_comma u_dot e)) as (p & q & Hpq).
  assert (Hr : Forall (fun c => c < 128)%N (replace_first u_comma u_dot e)).
  { clear Hpq. induction He; simpl; [done|]. case_decide; constructor; done. }
  rewrite Hpq in Hr. by apply Forall_app in Hr as [_ [? _]%Forall_app].
Qed.
End Normalize.
Lemma elem_of_trim_end x s : x ∈ trim_end s -> x ∈ s.
Proof.
  unfold trim_end. destruct (trim_start_suffix (rev s)) as [p Hp].
  rewrite elem_of_rev_iff. intros Hx. apply elem_of_rev_iff. rewrite Hp. set_solver.
Qed.

Lemma email_shape_has_at s : email_shape s -> u_at ∈ s.
Proof. intros (l & d1 & d2 & -> & _). set_solver. Qed.

(** ** ASCII addresses

    A piece of an address made of printable ASCII other than ['@'], [','],
    ['.'] and white space. On such text every case mapping is the ASCII
    one, and [trim] does nothing. *)
Definition plain (p : jsstr) : Prop :=
  p <> [] /\ Forall (fun c => (c < 128)%N /\ is_ws c = false /\ c ∉ [u_at; u_comma; u_dot]) p.

Definition ascii_text (s : jsstr) : Prop := Forall (fun c => (c < 128)%N /\ is_ws c = false) s.

Lemma ascii_lower_fixed c d : d ∈ [u_at; u_comma; u_dot] -> ascii_lower c = d <-> c = d.
Proof.
  unfold ascii_lower, u_at, u_comma, u_dot. intros Hd.
  repeat apply elem_of_cons in Hd as [->|Hd]; [case_decide; lia.. | set_solver].
Qed.

Lemma lower_not_elem d s : d ∈ [u_at; u_comma; u_dot] -> d ∉ s -> d ∉ map ascii_lower s.
Proof. intros Hd. apply map_not_elem. intros c. by apply ascii_lower_fixed. Qed.

Lemma plain_not_elem p d : plain p -> d ∈ [u_at; u_comma; u_dot] -> d ∉ p /\ d ∉ map ascii_lower p.
Proof.
  intros [_ Hp] Hd. assert (d ∉ p).
  { intros Hin. rewrite Forall_forall in Hp. destruct (Hp d Hin) as (_ & _ & Hn). done. }
  split; [done|]. by apply lower_not_elem.
Qed.

Lemma plain_ascii p : plain p -> ascii_text p.
Proof. intros [_ Hp]. eapply Forall_impl; [exact Hp|]. naive_solver. Qed.

Lemma ascii_text_app_sep a d b :
  ascii_text a -> d ∈ [u_at; u_comma; u_dot] -> ascii_text b -> ascii_text (a ++ d :: b).
Proof.
  intros Ha Hd Hb. apply Forall_app. split; [done|]. constructor; [|done].
  repeat apply elem_of_cons in Hd as [->|Hd]; [done.. | set_solver].
Qed.

Lemma ascii_text_lower s : ascii_text s -> ascii_text (map ascii_lower s).
Proof.
  induction 1 as [|c s [Hc Hw] _ IH]; constructor; [|done].
  unfold ascii_lower. case_decide; [|done]. split; [lia|]. unfold is_ws. apply bool_decide_eq_false. lia.
Qed.

Lemma ascii_lower_idem s : map ascii_lower (map ascii_lower s) = map ascii_lower s.
Proof. rewrite map_map. apply map_ext. intros c. unfold ascii_lower. repeat case_decide; lia. Qed.

Lemma replace_first_ascii s : ascii_text s -> ascii_text (replace_first u_comma u_dot s).
Proof. induction 1 as [|c s Hc Hs IH]; simpl; [constructor|].
  case_decide; constructor; try done.
Qed.

(** Lower-casing and the comma replacement commute. *)
Lemma replace_first_lower s :
  replace_first u_comma u_dot (map ascii_lower s) = map ascii_lower (replace_first u_comma u_dot s).
Proof.
  induction s as [|c s IH]; simpl; [done|].
  pose proof (ascii_lower_fixed c u_comma ltac:(set_solver)) as Hf.
  case_decide as E; case_decide as E'; rewrite ?IH; [done | naive_solver | naive_solver | done].
Qed.

(** The shape of a lower-cased address, from the shape of its pieces. *)
Lemma shape_lower l d1 d2 :
  l <> [] -> d1 <> [] -> d2 <> [] -> u_at ∉ l -> u_at ∉ d1 -> u_at ∉ d2 ->
  email_shape (map ascii_lower (l ++ u_at :: d1 ++ u_dot :: d2)).
Proof.
  intros Hl Hd1 Hd2 Hal Had1 Had2.
  exists (map ascii_lower l), (map ascii_lower d1), (map ascii_lower d2).
  rewrite map_app; cbn [map]; rewrite map_app; cbn [map]. split_and!; try reflexivity;
    try (intros ?%map_eq_nil; contradiction);
    apply lower_not_elem; set_solver.
Qed.

(** ** Properties of [cleanEmail] *)

Section CleanEmailProps.
Context `{CaseMapping}.
Lemma cleanEmail_some v c :
  cleanEmail v = Some c <-> exists e, v = JStr e /\ c = normalize_email e /\ email_shape c.
Proof.
  destruct v as [| |e|n]; simpl; try (split; [discriminate | naive_solver]).
  destruct (regex_test email_re (normalize_email e)) eqn:E; split.
  - intros [= <-]. exists e. rewrite <- email_re_shape. auto.
  - by intros (e' & [= <-] & -> & _).
  - discriminate.
  - intros (e' & [= <-] & -> & Hs). apply email_re_shape in Hs. congruence.
Qed.


(** C11: [cleanEmail] returns the normalised string of a string argument
    exactly when that string has the shape the pattern accepts, and
    [null] otherwise. *)
Theorem cleanEmail_spec v c :
  cleanEmail v = Some c <-> exists e, v = JStr e /\ c = normalize_email e /\ email_shape c.
Proof. intros; eapply cleanEmail_some; eauto. Qed.

(** C22: a cleaned address has the accepted shape and no ASCII capital. *)
Theorem cleanEmail_output v c :
  cleanEmail v = Some c -> email_shape c /\ Forall (fun x => is_ascii_upper x = false) c.
Proof.
  intros (e & -> & -> & Hs)%cleanEmail_some. split; [done|]. apply toLowerCase_no_upper.
Qed.

(** Anything but a string is rejected ([typeof email !== 'string']). *)
Lemma cleanEmail_not_string v : (forall e, v <> JStr e) -> cleanEmail v = None.
Proof. destruct v; simpl; try done. intros H'. by destruct (H' s). Qed.

Lemma normalize_not_shape e : ~ email_shape (normalize_email e) -> cleanEmail (JStr e) = None.
Proof.
  intros Hn. simpl. destruct (regex_test _ _) eqn:E; [|done].
  apply email_re_shape in E. contradiction.
Qed.

(** C13: the rejections of the spec: no ['@']; a second ['@']; or neither
    ['.'] nor [','] after the first ['@'] (a comma there would become a dot). *)
Theorem cleanEmail_rejects e :
  (u_at ∉ e \/ exists a b, e = a ++ u_at :: b /\ u_at ∉ a /\
                           (u_at ∈ b \/ (u_dot ∉ b /\ u_comma ∉ b))) ->
  cleanEmail (JStr e) = None.
Proof.
  intros Hcases. apply normalize_not_shape. intros Hs.
  destruct Hcases as [Hno | (a & b & -> & Ha & Hb)].
  - apply email_shape_has_at in Hs. by apply (at_free_normalize e).
  - rewrite normalize_email_at in Hs.
    assert (Ha' : u_at ∉ toLowerCase (trim_start (replace_first u_comma u_dot a))).
    { by apply toLowerCase_at_free, at_free_trim_start, at_free_replace. }
    set (X := if decide (u_comma ∈ a) then b else replace_first u_comma u_dot b) in Hs.
    destruct Hb as [Hb | [Hd Hc]].
    + apply email_shape_one_at in Hs as (l & r & Heq & Hl & Hr).
      apply first_at_unique in Heq as [_ <-]; [|done|done].
      apply Hr, elem_toLowerCase_at, elem_trim_end_nonws; [done|].
      subst X. case_decide; [done|]. by apply elem_of_replace_first.
    + destruct Hs as (l & d1 & d2 & Heq & _ & _ & _ & Hl & _ & _).
      apply first_at_unique in Heq as [_ Heq]; [|done|done].
      assert (HX : u_dot ∉ X).
      { subst X. case_decide; [done|]. by rewrite replace_first_free. }
      apply (toLowerCase_dot_free (trim_end X)).
      * intros Hin. by apply HX, elem_of_trim_end.
      * assert (Hd' : u_dot ∈ d1 ++ u_dot :: d2) by set_solver.
        rewrite <- Heq in Hd'. subst X. exact Hd'.
Qed.

(** On ASCII text without white space, [cleanEmail] lower-cases the text
    with its first comma made a dot, when that has the accepted shape. *)
Lemma cleanEmail_ascii e :
  ascii_text e -> email_shape (map ascii_lower (replace_first u_comma u_dot e)) ->
  cleanEmail (JStr e) = Some (map ascii_lower (replace_first u_comma u_dot e)).
Proof.
  intros He Hs. unfold cleanEmail. cbv zeta.
  rewrite normalize_email_ascii by (eapply Forall_impl; [exact He|]; naive_solver).
  pose proof (replace_first_ascii e He) as Hr.
  rewrite trim_free by (eapply Forall_impl; [exact Hr|]; naive_solver).
  by rewrite (proj2 (email_re_shape _) Hs).
Qed.

(** C23: the comma of line 30 is replaced wherever it is, so an address whose
    domain has a comma and no dot is kept, although the spec's property 2
    excludes an address without a ['.'] after its ['@']: every ASCII
    address [l@d1,d2] is cleaned to [l@d1.d2], lower-cased. *)
Theorem cleanEmail_comma_domain l d1 d2 :
  plain l -> plain d1 -> plain d2 ->
  cleanEmail (JStr (l ++ u_at :: d1 ++ u_comma :: d2)) =
  Some (map ascii_lower (l ++ u_at :: d1 ++ u_dot :: d2)).
Proof.
  intros Hl Hd1 Hd2.
  destruct (plain_not_elem l u_comma Hl) as [Hcl _]; [set_solver|].
  destruct (plain_not_elem d1 u_comma Hd1) as [Hcd1 _]; [set_solver|].
  assert (Hrep : replace_first u_comma u_dot (l ++ u_at :: d1 ++ u_comma :: d2) =
                 l ++ u_at :: d1 ++ u_dot :: d2).
  { rewrite app_comm_cons, app_assoc, replace_first_app by set_solver.
    by rewrite <- app_assoc. }
  rewrite <- Hrep. apply cleanEmail_ascii.
  - apply ascii_text_app_sep; [by apply plain_ascii | set_solver |].
    apply ascii_text_app_sep; [by apply plain_ascii | set_solver | by apply plain_ascii].
  - rewrite Hrep. apply shape_lower; try apply Hl; try apply Hd1; try apply Hd2;
      apply plain_not_elem; set_solver.
Qed.

(** C24: cleaning is not idempotent, a gap of the spec: only the first comma
    becomes a dot, so an ASCII address with two commas in its local part
    is kept with one comma left, and cleaning that result again changes
    it. *)
Theorem cleanEmail_not_idempotent l1 l2 l3 d1 d2 :
  plain l1 -> plain l2 -> plain l3 -> plain d1 -> plain d2 ->
  cleanEmail (JStr (l1 ++ u_comma :: l2 ++ u_comma :: l3 ++ u_at :: d1 ++ u_dot :: d2)) =
    Some (map ascii_lower (l1 ++ u_dot :: l2 ++ u_comma :: l3 ++ u_at :: d1 ++ u_dot :: d2)) /\
  cleanEmail (JStr (map ascii_lower (l1 ++ u_dot :: l2 ++ u_comma :: l3 ++ u_at :: d1 ++ u_dot :: d2))) =
    Some (map ascii_lower (l1 ++ u_dot :: l2 ++ u_dot :: l3 ++ u_at :: d1 ++ u_dot :: d2)) /\
  map ascii_lower (l1 ++ u_dot :: l2 ++ u_dot :: l3 ++ u_at :: d1 ++ u_dot :: d2) <>
  map ascii_lower (l1 ++ u_dot :: l2 ++ u_comma :: l3 ++ u_at :: d1 ++ u_dot :: d2).
Proof.
  intros Hl1 Hl2 Hl3 Hd1 Hd2.
  pose proof (plain_ascii _ Hl1). pose proof (plain_ascii _ Hl2). pose proof (plain_ascii _ Hl3).
  pose proof (plain_ascii _ Hd1). pose proof (plain_ascii _ Hd2).
  destruct (plain_not_elem l1 u_comma Hl1) as [Hc1 Hc1']; [set_solver|].
  destruct (plain_not_elem l2 u_comma Hl2) as [Hc2 Hc2']; [set_solver|].
  destruct (plain_not_elem l1 u_at Hl1) as [Ha1 _]; [set_solver|].
  destruct (plain_not_elem l2 u_at Hl2) as [Ha2 _]; [set_solver|].
  destruct (plain_not_elem l3 u_at Hl3) as [Ha3 _]; [set_solver|].
  destruct (plain_not_elem d1 u_at Hd1) as [Had1 _]; [set_solver|].
  destruct (plain_not_elem d2 u_at Hd2) as [Had2 _]; [set_solver|].
  set (X := l1 ++ u_dot :: l2 ++ u_comma :: l3 ++ u_at :: d1 ++ u_dot :: d2).
  set (Y := l1 ++ u_dot :: l2 ++ u_dot :: l3 ++ u_at :: d1 ++ u_dot :: d2).
  assert (HX : ascii_text X).
  { repeat (apply ascii_text_app_sep; [done | set_solver |]). done. }
  assert (Hnl1 : l1 <> []) by apply Hl1.
  assert (Hshape : forall d, d ∈ [u_comma; u_dot] ->
    email_shape (map ascii_lower (l1 ++ u_dot :: l2 ++ d :: l3 ++ u_at :: d1 ++ u_dot :: d2))).
  { intros d Hd.
    replace (l1 ++ u_dot :: l2 ++ d :: l3 ++ u_at :: d1 ++ u_dot :: d2)
      with ((l1 ++ u_dot :: l2 ++ d :: l3) ++ u_at :: d1 ++ u_dot :: d2)
      by (rewrite <- app_assoc; cbn [app]; by rewrite <- app_assoc).
    apply shape_lower; try apply Hd1; try apply Hd2; try done.
    - intros ?%app_eq_nil. naive_solver.
    - assert (d = u_comma \/ d = u_dot) as Hd' by set_solver.
      intros Hin. repeat (apply elem_of_app in Hin as [Hin|Hin] || apply elem_of_cons in Hin as [Hin|Hin]);
        try done; destruct Hd' as [-> | ->]; discriminate. }
  assert (HrX : replace_first u_comma u_dot (l1 ++ u_comma :: l2 ++ u_comma :: l3 ++ u_at :: d1 ++ u_dot :: d2) = X)
    by (by rewrite replace_first_app).
  assert (HrY : replace_first u_comma u_dot X = Y).
  { unfold X, Y. rewrite app_comm_cons, app_assoc, replace_first_app; [by rewrite <- app_assoc|].
    rewrite elem_of_app, elem_of_cons. intros [Hin|[Hin|Hin]]; [done | discriminate | done]. }
  split_and!.
  - rewrite <- HrX. apply cleanEmail_ascii; [|rewrite HrX; apply Hshape; set_solver].
    repeat (apply ascii_text_app_sep; [done | set_solver |]). done.
  - rewrite cleanEmail_ascii.
    + by rewrite replace_first_lower, HrY, ascii_lower_idem.
    + by apply ascii_text_lower.
    + rewrite replace_first_lower, HrY, ascii_lower_idem. apply Hshape. set_solver.
  - intros Heq. unfold X, Y in Heq. rewrite !map_app in Heq. apply app_inv_head in Heq.
    injection Heq as Heq. rewrite !map_app in Heq. apply app_inv_head in Heq.
    apply (f_equal (@hd_error N)) in Heq. vm_compute in Heq. discriminate.
Qed.
End CleanEmailProps.



(** Witnesses, with the Latin-1 case mapping. *)

Lemma cleanEmail_output_witness :
  cleanEmail (JStr (js "Ucitel@Skola.CZ")) = Some (js "ucitel@skola.cz") /\
  email_shape (js "ucitel@skola.cz") /\
  Forall (fun x => is_ascii_upper x = false) (js "ucitel@skola.cz").
Proof.
  assert (Hc : cleanEmail (JStr (js "Ucitel@Skola.CZ")) = Some (js "ucitel@skola.cz"))
    by reflexivity.
  split; [exact Hc|]. exact (cleanEmail_output _ _ Hc).
Defined.

Lemma cleanEmail_rejects_witness :
  cleanEmail (H := latin1_case) (JStr (js "a@b@c.d")) = None.
Proof.
  apply cleanEmail_rejects. right. exists (js "a"), (js "b@c.d").
  split_and!; [reflexivity | decide_goal | left; decide_goal].
Defined.

Lemma cleanEmail_comma_domain_witness :
  cleanEmail (H := latin1_case) (JStr (js "Jana@skola,cz")) = Some (js "jana@skola.cz").
Proof.
  assert (P1 : plain (js "Jana")) by (unfold plain; decide_goal).
  assert (P2 : plain (js "skola")) by (unfold plain; decide_goal).
  assert (P3 : plain (js "cz")) by (unfold plain; decide_goal).
  exact (@cleanEmail_comma_domain latin1_case (js "Jana") (js "skola") (js "cz") P1 P2 P3).
Defined.

Lemma cleanEmail_not_idempotent_witness :
  cleanEmail (H := latin1_case) (JStr (js "a,b,c@skola.cz")) = Some (js "a.b,c@skola.cz") /\
  cleanEmail (H := latin1_case) (JStr (js "a.b,c@skola.cz")) = Some (js "a.b.c@skola.cz") /\
  js "a.b.c@skola.cz" <> js "a.b,c@skola.cz".
Proof.
  assert (P1 : plain (js "a")) by (unfold plain; decide_goal).
  assert (P2 : plain (js "b")) by (unfold plain; decide_goal).
  assert (P3 : plain (js "c")) by (unfold plain; decide_goal).
  assert (P4 : plain (js "skola")) by (unfold plain; decide_goal).
  assert (P5 : plain (js "cz")) by (unfold plain; decide_goal).
  exact (@cleanEmail_not_idempotent latin1_case (js "a") (js "b") (js "c") (js "skola") (js "cz")
           P1 P2 P3 P4 P5).
Defined.
