(* ===== verification/JSDate.v ===== *)
(** * Dates: [parseCzechDate] and the COVID window (src/cleaner.js, lines 35-48, 59)

    Time values are integers of milliseconds since 1970-01-01T00:00Z, as
    in ECMA-262 21.4.1; [None] is the NaN time value of an Invalid Date.
    [MakeDay], [MakeTime], [MakeDate] and [TimeClip] are the spec's
    operations. [new Date('2020-03-13')] parses an ISO date-only string,
    which the spec fixes to UTC midnight ([parse_iso_date]). The string
    that [parseCzechDate] builds, ["Y-M-DTHH:MM:00"], has no offset and a
    month and day that may have one digit; how it is read is left to the
    engine, so it is an interface ([LocalTime]) whose law says that a
    well-formed string denotes that local date and time, converted to UTC
    with the local time-zone offset. *)

From S2P Require Import Prelude JSString JSNumber.

Local Open Scope Z_scope.
Local Open Scope js_scope.

(** ** ECMA-262 day and time arithmetic *)

Definition msPerDay : Z := 86400000.

Definition DayFromYear (y : Z) : Z :=
  365 * (y - 1970) + (y - 1969) / 4 - (y - 1901) / 100 + (y - 1601) / 400.

Definition InLeapYear (y : Z) : bool :=
  (y mod 4 =? 0) && (negb (y mod 100 =? 0) || (y mod 400 =? 0)).

(** Days of the year before month [mn] (0 = January). *)
Definition days_before_month (mn : Z) (leap : bool) : Z :=
  let l := if leap then 1 else 0 in
  match mn with
  | 0 => 0 | 1 => 31 | 2 => 59 + l | 3 => 90 + l | 4 => 120 + l | 5 => 151 + l
  | 6 => 181 + l | 7 => 212 + l | 8 => 243 + l | 9 => 273 + l | 10 => 304 + l
  | _ => 334 + l
  end.

Definition DaysInMonth (y mn : Z) : Z :=
  days_before_month (mn + 1) (InLeapYear y) - days_before_month mn (InLeapYear y)
  + (if mn =? 11 then 31 else 0).

Definition MakeDay (year month date : Z) : Z :=
  let ym := year + month / 12 in
  let mn := month mod 12 in
  DayFromYear ym + days_before_month mn (InLeapYear ym) + date - 1.

Definition MakeTime (h m s ms : Z) : Z := h * 3600000 + m * 60000 + s * 1000 + ms.

Definition MakeDate (day time : Z) : Z := day * msPerDay + time.

Definition TimeClip (t : Z) : option Z :=
  if Z.abs t <=? 8640000000000000 then Some t else None.

(** ** [new Date("YYYY-MM-DD")]: an ISO date-only string is UTC midnight *)

Definition parse_iso_date (s : jsstr) : option Z :=
  match split_on u_minus s with
  | [y; mo; d] =>
      if bool_decide (length y = 4%nat /\ length mo = 2%nat /\ length d = 2%nat)
         && all_digits (y ++ mo ++ d)
      then let M := digits_value mo in let D := digits_value d in
           if (1 <=? M) && (M <=? 12) && (1 <=? D) && (D <=? 31)
           then TimeClip (MakeDate (MakeDay (digits_value y) (M - 1) D) 0)
           else None
      else None
  | _ => None
  end.

(** [covidStart] and [covidEnd] (lines 47-48). *)
Definition covidStart : option Z := parse_iso_date (js "2020-03-13").
Definition covidEnd : option Z := parse_iso_date (js "2021-05-30").

(** ** The engine's reading of ["Y-M-DTHH:MM:00"] *)

(** A well-formed date and time: a four-digit year from 1000 on, a month
    and a day of one or two digits forming a real date, and an hour and a
    minute of two digits within a day. *)
Definition date_fields (y mo d hh mi : jsstr) : bool :=
  bool_decide (length y = 4%nat) && all_digits y &&
  bool_decide (1 <= length mo <= 2)%nat && all_digits mo &&
  bool_decide (1 <= length d <= 2)%nat && all_digits d &&
  bool_decide (length hh = 2%nat) && all_digits hh &&
  bool_decide (length mi = 2%nat) && all_digits mi &&
  (1000 <=? digits_value y) &&
  (1 <=? digits_value mo) && (digits_value mo <=? 12) &&
  (1 <=? digits_value d) && (digits_value d <=? DaysInMonth (digits_value y) (digits_value mo - 1)) &&
  (digits_value hh <=? 23) && (digits_value mi <=? 59).

Definition local_string (y mo d hh mi : jsstr) : jsstr :=
  y ++ u_minus :: mo ++ u_minus :: d ++ u_T :: hh ++ u_colon :: mi ++ [u_colon; u_zero; u_zero].

(** The local time value the string denotes. *)
Definition local_value (y mo d hh mi : jsstr) : Z :=
  MakeDate (MakeDay (digits_value y) (digits_value mo - 1) (digits_value d))
           (MakeTime (digits_value hh) (digits_value mi) 0 0).

(** [new Date(s)] for an offset-free string [s], and the local time zone.
    [local_offset t] is LocalTZA for the local time [t]: local time minus
    UTC, in milliseconds (+1 h in Prague in winter, +2 h in summer). *)
Class LocalTime := {
  local_offset : Z -> Z;
  parse_local : jsstr -> option Z;
  parse_local_spec : forall y mo d hh mi,
    date_fields y mo d hh mi = true ->
    parse_local (local_string y mo d hh mi) =
    TimeClip (local_value y mo d hh mi - local_offset (local_value y mo d hh mi))
}.

(** An engine reading only the well-formed strings, in a zone with a fixed
    offset [off]. *)
Definition fixed_parse (off : Z) (s : jsstr) : option Z :=
  match split_on u_T s with
  | [date; time] =>
      match split_on u_minus date, split_on u_colon time with
      | [y; mo; d], [hh; mi; ss] =>
          if date_fields y mo d hh mi && bool_decide (ss = [u_zero; u_zero])
          then TimeClip (local_value y mo d hh mi - off) else None
      | _, _ => None
      end
  | _ => None
  end.

Lemma date_fields_digits y mo d hh mi :
  date_fields y mo d hh mi = true ->
  all_digits y = true /\ all_digits mo = true /\ all_digits d = true /\
  all_digits hh = true /\ all_digits mi = true.
Proof. unfold date_fields. intros H. bool_to_prop. auto. Qed.

Lemma digits_free_of u s : is_digit u = false -> all_digits s = true -> u ∉ s.
Proof. apply all_digits_not_elem. Qed.

Lemma local_string_join y mo d hh mi :
  local_string y mo d hh mi =
  join_on u_T [join_on u_minus [y; mo; d]; join_on u_colon [hh; mi; [u_zero; u_zero]]].
Proof. unfold local_string. simpl. repeat (rewrite <- app_assoc; simpl). reflexivity. Qed.

Lemma digits_sep_free sep fs :
  is_digit sep = false -> Forall (fun f => all_digits f = true) fs -> Forall (fun f => sep ∉ f) fs.
Proof. intros Hs Hfs. eapply Forall_impl; [exact Hfs|]. intros f. by apply all_digits_not_elem. Qed.

Lemma fixed_parse_spec off y mo d hh mi :
  date_fields y mo d hh mi = true ->
  fixed_parse off (local_string y mo d hh mi) = TimeClip (local_value y mo d hh mi - off).
Proof.
  intros Hf. pose proof (date_fields_digits _ _ _ _ _ Hf) as (Hy & Hmo & Hd & Hh & Hmi).
  unfold fixed_parse. rewrite local_string_join.
  rewrite split_on_join; [|done|].
  2: { repeat constructor; intros [? | Hin]%elem_of_join_on; try done;
       repeat (apply Exists_cons in Hin as [Hin | Hin]);
       try (by apply Exists_nil in Hin); try (by apply all_digits_not_elem in Hin); set_solver. }
  rewrite (split_on_join u_minus [y; mo; d])
    by (done || (apply digits_sep_free; [done | by repeat constructor])).
  rewrite (split_on_join u_colon [hh; mi; [u_zero; u_zero]])
    by (done || (apply digits_sep_free; [done | by repeat constructor])).
  by rewrite Hf, bool_decide_eq_true_2.
Qed.
#[export] Program Instance fixed_offset_time (off : Z) : LocalTime := {
  local_offset := fun _ => off;
  parse_local := fixed_parse off
}.
Next Obligation. intros off y mo d hh mi Hf. by apply fixed_parse_spec. Qed.

Lemma date_fields_iff y mo d hh mi :
  date_fields y mo d hh mi = true <->
  (length y = 4%nat /\ all_digits y = true /\ (1 <= length mo <= 2)%nat /\ all_digits mo = true /\
   (1 <= length d <= 2)%nat /\ all_digits d = true /\ length hh = 2%nat /\ all_digits hh = true /\
   length mi = 2%nat /\ all_digits mi = true /\ 1000 <= digits_value y /\
   1 <= digits_value mo <= 12 /\
   1 <= digits_value d <= DaysInMonth (digits_value y) (digits_value mo - 1) /\
   digits_value hh <= 23 /\ digits_value mi <= 59).
Proof.
  unfold date_fields. rewrite !andb_true_iff, !bool_decide_eq_true, !Z.leb_le. tauto.
Qed.

(** ** [parseCzechDate] (lines 36-45) *)

(** [null], or a [Date] with its time value ([None]: Invalid Date). *)
Inductive date_result :=
| DNull
| DDate (t : option Z).

(** [`${y}-${m}-${d}T${String(h).padStart(2, '0')}:${String(min).padStart(2, '0')}:00`]
    (line 44). *)
Definition czech_date_string (y m d : jsstr) (h min : jsval) : jsstr :=
  y ++ u_minus :: m ++ u_minus :: d ++ u_T ::
  padStart 2 u_zero (ToString h) ++ u_colon ::
  padStart 2 u_zero (ToString min) ++ [u_colon; u_zero; u_zero].

Section Parse.
Context `{LocalTime}.

(** Lines 36-45. [dateStr.split] on a value that is not a string throws;
    [!x] on a piece that is a string or [undefined] tests for [""] or a
    missing piece. *)
Definition parseCzechDate (dateStr : jsval) : throws date_result :=
  match dateStr with
  | JStr str =>
      let parts := split_on u_dot str in
      match parts !! 0%nat, parts !! 1%nat, parts !! 2%nat with
      | Some d, Some m, Some yhms =>
          if bool_decide (d = [] \/ m = [] \/ yhms = []) then Ok DNull else
          let parts2 := split_on u_space (trim yhms) in
          match parts2 !! 0%nat, parts2 !! 1%nat with
          | Some y, Some time =>
              if bool_decide (y = [] \/ time = []) then Ok DNull else
              let hm := map (fun p => JNum (ToNumber p)) (split_on u_colon time) in
              let h := from_option id JUndef (hm !! 0%nat) in
              let min := from_option id JUndef (hm !! 1%nat) in
              Ok (DDate (parse_local (czech_date_string y m d h min)))
          | _, _ => Ok DNull
          end
      | _, _, _ => Ok DNull
      end
  | _ => Throw TypeError
  end.
End Parse.

(** [dateCreated && dateCreated >= covidStart && dateCreated <= covidEnd]:
    a comparison with an Invalid Date is false. *)
Definition in_covid_window (t : option Z) : bool :=
  match t, covidStart, covidEnd with
  | Some v, Some a, Some b => (a <=? v) && (v <=? b)
  | _, _, _ => false
  end.

(** [... ? 1 : 0] (line 59). *)
Definition covid_flag (r : date_result) : Z :=
  match r with
  | DDate t => if in_covid_window t then 1 else 0
  | DNull => 0
  end.

(** ** Lemmas on the pieces of a well-formed date *)

(** [String(v).padStart(2, '0')] for an integer [v]. *)
Definition pad2 (v : Z) : jsstr := padStart 2 u_zero (ToString (JNum (jsint v))).

Definition pad2_ok (v : Z) : bool :=
  bool_decide (length (pad2 v) = 2%nat) && all_digits (pad2 v) && (digits_value (pad2 v) =? v).

Lemma pad2_ok_all : forallb (fun n => pad2_ok (Z.of_nat n)) (seq 0 100) = true.
Proof. vm_compute. reflexivity. Qed.

(** Below 100, the padded decimal form of [v] is two digits worth [v]. *)
Lemma pad2_spec v :
  0 <= v < 100 -> length (pad2 v) = 2%nat /\ all_digits (pad2 v) = true /\ digits_value (pad2 v) = v.
Proof.
  intros Hv. assert (Hok : pad2_ok v = true).
  { pose proof pad2_ok_all as Hall. rewrite forallb_forall in Hall.
    rewrite <- (Z2Nat.id v) by lia. apply Hall. apply in_seq. lia. }
  unfold pad2_ok in Hok. rewrite !andb_true_iff, bool_decide_eq_true, Z.eqb_eq in Hok. tauto.
Qed.

Lemma two_digits_field s : length s = 2%nat -> all_digits s = true -> digit_field s = true.
Proof.
  intros Hl Hs. unfold digit_field. rewrite Hs, !bool_decide_eq_true_2; [done | lia |].
  intros ->. discriminate.
Qed.

Lemma nonempty_of_length (s : jsstr) n : (1 <= n)%nat -> length s = n -> s <> [].
Proof. intros Hn Hl ->. simpl in Hl. lia. Qed.

Lemma digits_unit_free u s : is_digit u = false -> all_digits s = true -> u ∉ s.
Proof. apply all_digits_not_elem. Qed.

Section ParseLemmas.
Context `{LocalTime}.

(** The engine reads the string built from a well-formed date. *)
Lemma parse_czech_string y m d hh mm :
  date_fields y m d hh mm = true ->
  parse_local (czech_date_string y m d (JNum (jsint (digits_value hh))) (JNum (jsint (digits_value mm)))) =
  TimeClip (local_value y m d hh mm - local_offset (local_value y m d hh mm)).
Proof.
  intros Hf. pose proof Hf as Hf'. rewrite date_fields_iff in Hf'.
  destruct Hf' as (Hly & Hy & Hlm & Hm & Hld & Hd & Hlh & Hh & Hli & Hi & HY & HM & HD & HH & HI).
  pose proof (digits_value_bounds hh Hh) as Hbh. pose proof (digits_value_bounds mm Hi) as Hbm.
  destruct (pad2_spec (digits_value hh)) as (Hph & Hpd & Hpv); [lia|].
  destruct (pad2_spec (digits_value mm)) as (Hph' & Hpd' & Hpv'); [lia|].
  change (czech_date_string y m d _ _) with
    (local_string y m d (pad2 (digits_value hh)) (pad2 (digits_value mm))).
  rewrite parse_local_spec.
  - unfold local_value. by rewrite Hpv, Hpv'.
  - apply date_fields_iff. rewrite Hpv, Hpv'. tauto.
Qed.
End ParseLemmas.

Lemma split_czech_parts d m rest :
  all_digits d = true -> all_digits m = true -> u_dot ∉ rest ->
  split_on u_dot (d ++ u_dot :: m ++ u_dot :: rest) = [d; m; rest].
Proof.
  intros Hd Hm Hr. change (d ++ u_dot :: m ++ u_dot :: rest) with (join_on u_dot [d; m; rest]).
  apply split_on_join; [done|].
  repeat constructor; try done; by apply digits_unit_free.
Qed.

Section ParseProps.
Context `{LocalTime}.
Lemma parseCzechDate_fields d m y hh mm :
  date_fields y m d hh mm = true ->
  parseCzechDate (JStr (d ++ u_dot :: m ++ u_dot :: y ++ u_space :: hh ++ u_colon :: mm)) =
  Ok (DDate (TimeClip (local_value y m d hh mm - local_offset (local_value y m d hh mm)))).
Proof.
  intros Hf. pose proof Hf as Hf'. rewrite date_fields_iff in Hf'.
  destruct Hf' as (Hly & Hy & Hlm & Hm & Hld & Hd & Hlh & Hh & Hli & Hi & _).
  assert (Hne : forall s n, (1 <= n)%nat -> length s = n -> s <> []) by apply nonempty_of_length.
  assert (Hne_y : y <> []) by (apply (Hne y 4%nat); [lia | done]).
  assert (Hne_d : d <> []) by (destruct d; simpl in Hld; [lia | done]).
  assert (Hne_m : m <> []) by (destruct m; simpl in Hlm; [lia | done]).
  assert (Hne_h : hh <> []) by (apply (Hne hh 2%nat); [lia | done]).
  assert (Hne_mm : mm <> []) by (apply (Hne mm 2%nat); [lia | done]).
  unfold parseCzechDate. rewrite split_czech_parts; try done.
  2: { intros [Hx | Hx]%elem_of_app; [by apply (digits_unit_free u_dot y) |].
       apply elem_of_cons in Hx as [Hx | [Hx | Hx]%elem_of_app]; [done | by apply (digits_unit_free u_dot hh) |].
       apply elem_of_cons in Hx as [Hx | Hx]; [done | by apply (digits_unit_free u_dot mm)]. }
  cbn [lookup list_lookup]. rewrite bool_decide_eq_false_2 by (intros [?|[?|?]]; [done|done|by destruct y]).
  replace (y ++ u_space :: hh ++ u_colon :: mm) with (y ++ (u_space :: hh ++ [u_colon]) ++ mm)
    by (simpl; by rewrite <- app_assoc).
  rewrite (trim_nonws_ends y (u_space :: hh ++ [u_colon]) mm) by (done || by apply digits_nonws).
  replace (y ++ (u_space :: hh ++ [u_colon]) ++ mm) with (join_on u_space [y; hh ++ u_colon :: mm])
    by (simpl; by rewrite <- app_assoc).
  rewrite split_on_join; [|done|].
  2: { repeat constructor; [by apply digits_unit_free|].
       intros [Hx | Hx]%elem_of_app; [by apply (digits_unit_free u_space hh) |].
       apply elem_of_cons in Hx as [Hx | Hx]; [done | by apply (digits_unit_free u_space mm)]. }
  cbn [lookup list_lookup]. rewrite bool_decide_eq_false_2 by (intros [?|?]; [done | by destruct hh]).
  change (hh ++ u_colon :: mm) with (join_on u_colon [hh; mm]).
  rewrite split_on_join by (done || (repeat constructor; by apply digits_unit_free)).
  cbn [map lookup list_lookup from_option id].
  rewrite !ToNumber_field by (by apply two_digits_field).
  by rewrite parse_czech_string.
Qed.

End ParseProps.

(** [const dateCreated = parseCzechDate(row.dateCreated); const covid = ...]
    (lines 58-59). *)
Definition covid_of `{LocalTime} (dateCreated : jsval) : throws Z :=
  let! r := parseCzechDate dateCreated in Ok (covid_flag r).

(** ** The COVID window *)

Definition covid_start_ms : Z := 1584057600000.
Definition covid_end_ms : Z := 1622332800000.

Lemma covid_bounds : covidStart = Some covid_start_ms /\ covidEnd = Some covid_end_ms.
Proof. split; vm_compute; reflexivity. Qed.

(** The window test on a time value that [TimeClip] lets through. *)
Lemma covid_flag_clip t :
  covid_flag (DDate (TimeClip t)) =
  if (covid_start_ms <=? t) && (t <=? covid_end_ms) then 1 else 0.
Proof.
  destruct covid_bounds as [Hs He]. unfold covid_flag, in_covid_window, TimeClip.
  rewrite Hs, He. destruct (Z.abs t <=? 8640000000000000) eqn:E; [done|].
  apply Z.leb_gt in E. unfold covid_start_ms, covid_end_ms.
  destruct (Z.leb_spec 1584057600000 t), (Z.leb_spec t 1622332800000); simpl; lia.
Qed.

(** The UTC instant of a local date and time. *)
Definition utc_of `{LocalTime} (y m d hh mm : jsstr) : Z :=
  local_value y m d hh mm - local_offset (local_value y m d hh mm).

Section CovidProps.
Context `{LocalTime}.

Lemma parseCzechDate_string s : exists r, parseCzechDate (JStr s) = Ok r.
Proof. unfold parseCzechDate. repeat case_match; eauto. Qed.
Lemma covid_of_fields d m y hh mm :
  date_fields y m d hh mm = true ->
  covid_of (JStr (d ++ u_dot :: m ++ u_dot :: y ++ u_space :: hh ++ u_colon :: mm)) =
  Ok (if (covid_start_ms <=? utc_of y m d hh mm) && (utc_of y m d hh mm <=? covid_end_ms)
      then 1 else 0).
Proof.
  intros Hf. unfold covid_of. rewrite parseCzechDate_fields by done.
  by rewrite throws_bind_Ok, covid_flag_clip.
Qed.

(** C19: for a well-formed ["D.M.YYYY HH:MM"], the flag is 1 exactly when
    the UTC instant of that local time lies between 2020-03-13T00:00Z and
    2021-05-30T00:00Z, both included. *)
Theorem covid_of_wellformed d m y hh mm :
  date_fields y m d hh mm = true ->
  covid_of (JStr (d ++ u_dot :: m ++ u_dot :: y ++ u_space :: hh ++ u_colon :: mm)) =
  Ok (if (covid_start_ms <=? utc_of y m d hh mm) && (utc_of y m d hh mm <=? covid_end_ms)
      then 1 else 0).
Proof. intros; eapply covid_of_fields; eauto. Qed.
Lemma covid_of_throw_iff v :
  covid_of v = Throw TypeError <-> forall s, v <> JStr s.
Proof.
  unfold covid_of. destruct v as [| |s|n]; try (split; [intros _ s; discriminate | done]).
  split; [|intros Hs; by destruct (Hs s)].
  destruct (parseCzechDate_string s) as [r ->]. discriminate.
Qed.

Lemma covid_of_few_dots s :
  (length (split_on u_dot s) < 3)%nat -> covid_of (JStr s) = Ok 0.
Proof.
  intros Hl. unfold covid_of, parseCzechDate. cbv zeta.
  repeat case_match; try reflexivity.
  all: exfalso; match goal with H : _ !! 2%nat = Some _ |- _ => apply lookup_lt_Some in H end.
  all: unfold jsstr in *; lia.
Qed.

(** C21: a string with fewer than two dots is no date: the flag is 0 and
    nothing is raised. *)
Theorem covid_of_degrades s :
  (length (split_on u_dot s) < 3)%nat -> covid_of (JStr s) = Ok 0.
Proof. intros; eapply covid_of_few_dots; eauto. Qed.
End CovidProps.

Lemma covid_of_wellformed_witness :
  covid_of (H := fixed_offset_time 3600000)
    (JStr (js "13" ++ u_dot :: js "3" ++ u_dot :: js "2020" ++ u_space :: js "08" ++ u_colon :: js "00")) = Ok 1.
Proof. rewrite covid_of_wellformed by reflexivity. reflexivity. Defined.

Lemma covid_of_degrades_witness : covid_of (H := fixed_offset_time 0) (JStr (js "garbage")) = Ok 0.
Proof. apply covid_of_degrades. vm_compute. lia. Defined.

