(* ===== verification/Calendar.v ===== *)
(** * Calendar order of ECMAScript day numbers, and the COVID flag by day

    [MakeDay] (ECMA-262 21.4.1.28, in [JSDate]) numbers the days of valid
    dates in calendar order ([MakeDay_mono]). It rests on the length of a
    year computed from [DayFromYear] ([DayFromYear_succ]). The consequence
    for line 59 is [covid_by_day]. In every zone whose offset lies between
    0 and 24 hours, the flag of a well-formed ["D.M.YYYY HH:MM"] depends
    only on the calendar day, except on the first and the last day of the
    window:
    - days up to 12.3.2020 and from 31.5.2021 on give 0;
    - days from 14.3.2020 to 29.5.2021 give 1;
    - on 13.3.2020 the flag is 1 only from the local time equal to the
      offset on;
    - on 30.5.2021 it is 1 only up to that time. *)

From S2P Require Import Prelude JSString JSNumber JSDate.
Local Open Scope Z_scope.

Definition year_days (y : Z) : Z := if InLeapYear y then 366 else 365.

Definition valid_date (y m d : Z) : bool :=
  (1 <=? m) && (m <=? 12) && (1 <=? d) && (d <=? DaysInMonth y (m - 1)).

Definition date_leb (a b : Z * Z * Z) : bool :=
  let '(y, m, d) := a in let '(y', m', d') := b in
  (y <? y') || ((y =? y') && ((m <? m') || ((m =? m') && (d <=? d')))).

Lemma valid_date_spec y m d :
  valid_date y m d = true <-> 1 <= m <= 12 /\ 1 <= d <= DaysInMonth y (m - 1).
Proof. unfold valid_date. rewrite !andb_true_iff, !Z.leb_le. tauto. Qed.

Lemma DayFromYear_succ y : DayFromYear (y + 1) = DayFromYear y + year_days y.
Proof.
  unfold DayFromYear, year_days, InLeapYear.
  destruct (Z.eqb_spec (y mod 4) 0), (Z.eqb_spec (y mod 100) 0), (Z.eqb_spec (y mod 400) 0);
    simpl; Z.div_mod_to_equations; lia.
Qed.

Lemma year_days_bounds y : 365 <= year_days y <= 366.
Proof. unfold year_days. destruct (InLeapYear y); lia. Qed.

Lemma DayFromYear_lt y y' : y < y' -> DayFromYear y + year_days y <= DayFromYear y'.
Proof.
  intros Hy. replace y' with (y + 1 + Z.of_nat (Z.to_nat (y' - y - 1))) by lia.
  induction (Z.to_nat (y' - y - 1)) as [|n IH].
  - rewrite Z.add_0_r, DayFromYear_succ. lia.
  - rewrite Nat2Z.inj_succ, Z.add_succ_r, <- Z.add_1_r, DayFromYear_succ.
    pose proof (year_days_bounds (y + 1 + Z.of_nat n)). lia.
Qed.

Lemma month_cases m : 0 <= m <= 11 ->
  m = 0 \/ m = 1 \/ m = 2 \/ m = 3 \/ m = 4 \/ m = 5 \/ m = 6 \/ m = 7 \/ m = 8 \/
  m = 9 \/ m = 10 \/ m = 11.
Proof. lia. Qed.

Ltac month_cases m :=
  let H := fresh in
  assert (H : 0 <= m <= 11) by lia;
  apply month_cases in H; repeat destruct H as [H | H]; rewrite H in *.

Lemma MakeDay_month y m d : 1 <= m <= 12 ->
  MakeDay y (m - 1) d = DayFromYear y + days_before_month (m - 1) (InLeapYear y) + d - 1.
Proof.
  intros Hm. unfold MakeDay. rewrite Z.div_small, Z.mod_small by lia. by rewrite Z.add_0_r.
Qed.

(** The day of the year of a valid date is within the year. *)
Lemma day_of_year_bounds y m d : valid_date y m d = true ->
  0 <= days_before_month (m - 1) (InLeapYear y) + d - 1 < year_days y.
Proof.
  rewrite valid_date_spec. unfold DaysInMonth, year_days. intros [Hm Hd].
  destruct (InLeapYear y); month_cases (m - 1); simpl in *; lia.
Qed.

(** A valid date ends before the first day of a later month. *)
Lemma day_before_next_month y m m' d : valid_date y m d = true -> m < m' <= 12 ->
  days_before_month (m - 1) (InLeapYear y) + d <= days_before_month (m' - 1) (InLeapYear y).
Proof.
  rewrite valid_date_spec. unfold DaysInMonth. intros [Hm Hd] Hm'.
  destruct (InLeapYear y); month_cases (m - 1); month_cases (m' - 1); simpl in *; lia.
Qed.

(** Day numbers follow the calendar order of valid dates. *)
Lemma MakeDay_mono y m d y' m' d' :
  valid_date y m d = true -> valid_date y' m' d' = true ->
  date_leb (y, m, d) (y', m', d') = true -> MakeDay y (m - 1) d <= MakeDay y' (m' - 1) d'.
Proof.
  intros Hv Hv' Hle.
  pose proof (day_of_year_bounds _ _ _ Hv). pose proof (day_of_year_bounds _ _ _ Hv').
  pose proof Hv as Hm. pose proof Hv' as Hm'. apply valid_date_spec in Hm, Hm'.
  rewrite !MakeDay_month by lia. simpl in Hle.
  destruct (Z.ltb_spec y y') as [Hy|Hy]; simpl in Hle.
  { pose proof (DayFromYear_lt y y' Hy). lia. }
  apply andb_true_iff in Hle as [->%Z.eqb_eq Hle].
  destruct (Z.ltb_spec m m') as [Hmm|Hmm]; simpl in Hle.
  { pose proof (day_before_next_month y' m m' d Hv ltac:(lia)). lia. }
  apply andb_true_iff in Hle as [->%Z.eqb_eq Hd%Z.leb_le]. lia.
Qed.

Ltac date_lex :=
  unfold date_leb in *;
  repeat match goal with
  | |- context [(?a <? ?b)] => destruct (Z.ltb_spec a b)
  | |- context [(?a =? ?b)] => destruct (Z.eqb_spec a b)
  | |- context [(?a <=? ?b)] => destruct (Z.leb_spec a b)
  | H : context [(?a <? ?b)] |- _ => destruct (Z.ltb_spec a b)
  | H : context [(?a =? ?b)] |- _ => destruct (Z.eqb_spec a b)
  | H : context [(?a <=? ?b)] |- _ => destruct (Z.leb_spec a b)
  end; simpl in *; try congruence; try lia.

(** Just after day [(y, m, d + 1)]: the dates after [(y, m, d)] other than
    [(y, m, d + 1)] come from [(y, m, d + 2)] on. *)
Lemma date_leb_after D y m d :
  date_leb D (y, m, d) = false -> D <> (y, m, d + 1) -> date_leb (y, m, d + 2) D = true.
Proof.
  destruct D as [[y' m'] d']. intros H1 H2. date_lex.
  all: exfalso; apply H2; repeat f_equal; lia.
Qed.

Lemma date_leb_before D y m d :
  date_leb (y, m, d) D = false -> D <> (y, m, d - 1) -> date_leb D (y, m, d - 2) = true.
Proof.
  destruct D as [[y' m'] d']. intros H1 H2. date_lex.
  all: exfalso; apply H2; repeat f_equal; lia.
Qed.

(** The flag by calendar day: 0 outside the days 13.3.2020 to 30.5.2021, 1
    strictly inside, and on the first and last day a comparison of the
    local time of day [T] with the zone offset [off]. *)
Definition covid_day (D : Z * Z * Z) (T off : Z) : Z :=
  if date_leb D (2020, 3, 12) || date_leb (2021, 5, 31) D then 0
  else if bool_decide (D = (2020, 3, 13)) then (if off <=? T then 1 else 0)
  else if bool_decide (D = (2021, 5, 30)) then (if T <=? off then 1 else 0)
  else 1.

Lemma date_fields_valid y m d hh mi :
  date_fields y m d hh mi = true ->
  valid_date (digits_value y) (digits_value m) (digits_value d) = true /\
  0 <= digits_value hh <= 23 /\ 0 <= digits_value mi <= 59.
Proof.
  unfold date_fields. intros Hf. bool_to_prop.
  pose proof (digits_value_bounds hh ltac:(assumption)).
  pose proof (digits_value_bounds mi ltac:(assumption)).
  repeat match goal with H : (_ <=? _) = true |- _ => apply Z.leb_le in H end.
  rewrite valid_date_spec. lia.
Qed.

Lemma covid_window_days :
  covid_start_ms = MakeDay 2020 (3 - 1) 13 * msPerDay /\
  covid_end_ms = MakeDay 2021 (5 - 1) 30 * msPerDay.
Proof. split; vm_compute; reflexivity. Qed.

Lemma window_day_numbers :
  MakeDay 2020 (3 - 1) 12 = 18333 /\ MakeDay 2020 (3 - 1) 13 = 18334 /\
  MakeDay 2020 (3 - 1) (12 + 2) = 18335 /\ MakeDay 2021 (5 - 1) (31 - 2) = 18776 /\
  MakeDay 2021 (5 - 1) 30 = 18777 /\ MakeDay 2021 (5 - 1) 31 = 18778.
Proof. split_and!; vm_compute; reflexivity. Qed.

Ltac window_arith :=
  unfold msPerDay in *;
  repeat match goal with |- context [(?a <=? ?b)] => destruct (Z.leb_spec a b) end;
  cbn [andb]; lia.

Section CovidDays.
Context `{LocalTime}.
Hypothesis offset_east : forall t, 0 <= local_offset t < msPerDay.

(** C20: the COVID flag by calendar day, in any zone east of UTC (offset
    from 0 to 24 hours): 0 for the days before 13.3.2020 and after
    30.5.2021, 1 for the days strictly between, and on the two boundary
    days a comparison of the local time of day with the zone offset. *)
Theorem covid_by_day d m y hh mm :
  date_fields y m d hh mm = true ->
  covid_of (JStr (d ++ u_dot :: m ++ u_dot :: y ++ u_space :: hh ++ u_colon :: mm)) =
  Ok (covid_day (digits_value y, digits_value m, digits_value d)
                (MakeTime (digits_value hh) (digits_value mm) 0 0)
                (local_offset (local_value y m d hh mm))).
Proof using offset_east.
  intros Hf. rewrite covid_of_fields by done. f_equal.
  destruct (date_fields_valid _ _ _ _ _ Hf) as (Hv & Hh & Hm).
  unfold utc_of. pose proof (offset_east (local_value y m d hh mm)) as Ho.
  set (off := local_offset (local_value y m d hh mm)) in *.
  unfold local_value, MakeDate.
  set (T := MakeTime (digits_value hh) (digits_value mm) 0 0).
  assert (HT : 0 <= T <= 86340000) by (unfold T, MakeTime; lia).
  destruct covid_window_days as [-> ->].
  destruct window_day_numbers as (E12 & E13 & E14 & E29 & E30 & E31).
  rewrite E13, E30. unfold covid_day.
  set (D := (digits_value y, digits_value m, digits_value d)).
  destruct (date_leb D (2020, 3, 12)) eqn:B1; cbn [orb].
  { pose proof (MakeDay_mono _ _ _ 2020 3 12 Hv eq_refl B1). rewrite E12 in *. window_arith. }
  destruct (date_leb (2021, 5, 31) D) eqn:B2; cbn [orb].
  { pose proof (MakeDay_mono 2021 5 31 _ _ _ eq_refl Hv B2). rewrite E31 in *. window_arith. }
  case_bool_decide as D1.
  { injection D1 as -> -> ->. rewrite E13. window_arith. }
  case_bool_decide as D2.
  { injection D2 as -> -> ->. rewrite E30. window_arith. }
  pose proof (MakeDay_mono 2020 3 (12 + 2) _ _ _ eq_refl Hv (date_leb_after D 2020 3 12 B1 D1)).
  pose proof (MakeDay_mono _ _ _ 2021 5 (31 - 2) Hv eq_refl (date_leb_before D 2021 5 31 B2 D2)).
  rewrite E14, E29 in *. window_arith.
Qed.
End CovidDays.

Lemma covid_by_day_witness :
  @covid_of (fixed_offset_time 3600000)
    (JStr (js "1" ++ u_dot :: js "1" ++ u_dot :: js "2021" ++ u_space :: js "10" ++ u_colon :: js "00")) =
  Ok 1.
Proof.
  rewrite (@covid_by_day (fixed_offset_time 3600000)).
  - vm_compute. reflexivity.
  - intros t. unfold msPerDay. simpl. lia.
  - reflexivity.
Defined.
