(* ===== verification/Row.v ===== *)
(** * The row object and the ['data'] listener (src/cleaner.js, lines 54-76)

    A row is the plain object csv-parser emits: its own properties, in
    insertion order, as an association list without duplicate keys.
    [get] is property access ([undefined] when absent); [set] is
    assignment, which keeps the position of an existing property and
    appends a new one. The listener [onData] reads the row, may return
    early (line 56), may throw (a [TypeError] from [parseCzechDate] or
    [convertToMinutes]), and otherwise mutates the row and pushes it. The
    row object is fresh for every event and is not touched after the push,
    so the mutation is modelled by returning the updated object. *)

From S2P Require Import Prelude JSString JSNumber Regex Email Minutes JSDate.

Local Open Scope js_scope.

Definition obj := list (jsstr * jsval).

Definition keys (o : obj) : list jsstr := map fst o.

(** [o[k]] *)
Fixpoint get (o : obj) (k : jsstr) : jsval :=
  match o with
  | [] => JUndef
  | (k', v) :: o' => if decide (k = k') then v else get o' k
  end.

(** [o[k] = v] *)
Fixpoint set (k : jsstr) (v : jsval) (o : obj) : obj :=
  match o with
  | [] => [(k, v)]
  | (k', v') :: o' => if decide (k = k') then (k, v) :: o' else (k', v') :: set k v o'
  end.

(** ** The constants of the listener *)

Definition k_teacherEmail : jsstr := js "teacherEmail".
Definition k_zam : jsstr := js "zam".
Definition k_dateCreated : jsstr := js "dateCreated".
Definition k_timeSpent : jsstr := js "timeSpent".
Definition k_timeSpentMinutes : jsstr := js "timeSpentMinutes".
Definition k_cleanedEmail : jsstr := js "cleanedEmail".
Definition k_COVID : jsstr := js "COVID".
Definition k_exerciseDescription : jsstr := js "exerciseDescription".
Definition k_from : jsstr := js "from".
Definition k_b4 : jsstr := js "b4".

(** ['cvičení s celou třídou'] (line 65): c-caron U+010D, i-acute U+00ED,
    r-caron U+0159. *)
Definition whole_class_cs : jsstr :=
  js "cvi" ++ [269%N] ++ js "en" ++ [237%N] ++ js " s celou t" ++ [345%N; 237%N] ++ js "dou".

Definition whole_class_en : jsstr := js "Modes of the work with the activity".

Definition b4_suffix : jsstr := js " [https://dejepisplus.npi.cz/historicka-gramotnost/]".

(** [v || w] *)
Definition js_or (v w : jsval) : jsval := if truthy v then v else w.

(** [a + b] when [b] is a string. *)
Definition concat_str (v : jsval) (s : jsstr) : jsval := JStr (ToString v ++ s).

(** ** The listener *)

Section Handler.
Context `{CaseMapping} `{LocalTime}.

(** Lines 61-73, after the filters: the three derived fields, then the
    two remaps and the suffix of [b4], in the order of the source. *)
Definition enrich (row : obj) (cleanedEmail : jsstr) (covid : Z) (minutes : jsnum) : obj :=
  let row := set k_timeSpentMinutes (JNum minutes) row in
  let row := set k_cleanedEmail (JStr cleanedEmail) row in
  let row := set k_COVID (JNum (jsint covid)) row in
  let row := if strict_eq (get row k_exerciseDescription) (JStr whole_class_cs)
             then set k_exerciseDescription (JStr whole_class_en) row else row in
  let row := if strict_eq (get row k_from) (JStr (js "free"))
             then set k_from (JStr (js "Fred")) row else row in
  set k_b4 (concat_str (js_or (get row k_b4) (JStr [])) b4_suffix) row.

(** Lines 54-76: [Ok None] is the early return of line 56, [Ok (Some r)]
    the push of line 75, [Throw] an exception out of the listener. *)
Definition onData (row : obj) : throws (option obj) :=
  match cleanEmail (get row k_teacherEmail) with
  | Some cleanedEmail =>
      if bool_decide (cleanedEmail = []) || negb (strict_eq (get row k_zam) (JStr (js "0")))
      then Ok None
      else
        let! covid := covid_of (get row k_dateCreated) in
        let! minutes := convertToMinutes (get row k_timeSpent) in
        Ok (Some (enrich row cleanedEmail covid minutes))
  | None => Ok None
  end.
End Handler.

(** ** Lemmas on property access and assignment *)

Lemma get_set_eq o k v : get (set k v o) k = v.
Proof.
  induction o as [|[k' v'] o IH]; simpl; [by rewrite decide_True|].
  case_decide; simpl; [by rewrite decide_True | by rewrite decide_False].
Qed.

Lemma get_set_ne o k k' v : k <> k' -> get (set k v o) k' = get o k'.
Proof.
  intros Hne. induction o as [|[k'' v'] o IH]; simpl; [by rewrite decide_False|].
  case_decide; subst; simpl.
  - by rewrite !decide_False.
  - case_decide; [done | apply IH].
Qed.

#[export] Hint Rewrite get_set_eq : js_simpl.

Lemma keys_set o k v :
  keys (set k v o) = if decide (k ∈ keys o) then keys o else keys o ++ [k].
Proof.
  induction o as [|[k' v'] o IH]; simpl.
  { destruct (decide (k ∈ [])); [set_solver | done]. }
  destruct (decide (k = k')) as [->|Hk]; simpl.
  - destruct (decide (k' ∈ k' :: keys o)); [done | set_solver].
  - rewrite IH. destruct (decide (k ∈ keys o)), (decide (k ∈ k' :: keys o)); try set_solver; done.
Qed.

(** Assignment keeps the keys without duplicates. *)
Lemma NoDup_keys_set o k v : NoDup (keys o) -> NoDup (keys (set k v o)).
Proof.
  intros Hnd. rewrite keys_set. case_decide; [done|].
  apply NoDup_app. split_and!; [done | set_solver | apply NoDup_singleton].
Qed.

Lemma strict_eq_str v s : strict_eq v (JStr s) = true <-> v = JStr s.
Proof.
  destruct v as [| |s'|[]]; simpl; rewrite ?bool_decide_eq_true; split; congruence.
Qed.

Lemma get_keys o k : get o k <> JUndef -> k ∈ keys o.
Proof.
  induction o as [|[k' v'] o IH]; simpl; [done|].
  case_decide; intros Hk; apply elem_of_cons; [by left | right; auto].
Qed.

(** An assignment guarded by [o[k] === s] never adds a column. *)
Lemma keys_cond_set o k s v :
  keys (if strict_eq (get o k) (JStr s) then set k v o else o) = keys o.
Proof.
  case_match eqn:E; [|done]. apply strict_eq_str in E.
  rewrite keys_set, decide_True; [done|]. apply get_keys. by rewrite E.
Qed.

Lemma covid_flag_01 r : covid_flag r = 0%Z \/ covid_flag r = 1%Z.
Proof. destruct r; simpl; [|destruct (in_covid_window t)]; auto. Qed.

(** The keys the listener writes are distinct from each other and from the
    keys it reads. *)
Definition listener_keys : list jsstr :=
  [k_teacherEmail; k_zam; k_dateCreated; k_timeSpent; k_timeSpentMinutes; k_cleanedEmail;
   k_COVID; k_exerciseDescription; k_from; k_b4].

Lemma listener_keys_NoDup : NoDup listener_keys.
Proof. decide_goal. Qed.

(** Rewrite reads of assigned objects, the keys being told apart by
    evaluation or by the hypotheses. *)
Ltac simpl_get :=
  repeat match goal with
  | |- context [get (set ?a ?v ?o) ?a] => rewrite (get_set_eq o a v)
  | |- context [get (set ?a ?v ?o) ?b] =>
      rewrite (get_set_ne o a b v) by (first [decide_goal | set_solver | congruence])
  | H : context [get (set ?a ?v ?o) ?a] |- _ => rewrite (get_set_eq o a v) in H
  | H : context [get (set ?a ?v ?o) ?b] |- _ =>
      rewrite (get_set_ne o a b v) in H by (first [decide_goal | set_solver | congruence])
  end.

Ltac enrich_cases :=
  unfold enrich; cbv zeta; simpl_get; repeat (case_match; simpl_get); try done; congruence.

Section EnrichFields.
Context `{CaseMapping} `{LocalTime}.
Variables (row : obj) (ce : jsstr) (c : Z) (m : jsnum).

Lemma get_enrich_minutes : get (enrich row ce c m) k_timeSpentMinutes = JNum m.
Proof. enrich_cases. Qed.

Lemma get_enrich_email : get (enrich row ce c m) k_cleanedEmail = JStr ce.
Proof. enrich_cases. Qed.

Lemma get_enrich_covid : get (enrich row ce c m) k_COVID = JNum (jsint c).
Proof. enrich_cases. Qed.

Lemma get_enrich_description :
  get (enrich row ce c m) k_exerciseDescription =
  if strict_eq (get row k_exerciseDescription) (JStr whole_class_cs)
  then JStr whole_class_en else get row k_exerciseDescription.
Proof. enrich_cases. Qed.

Lemma get_enrich_from :
  get (enrich row ce c m) k_from =
  if strict_eq (get row k_from) (JStr (js "free")) then JStr (js "Fred") else get row k_from.
Proof. enrich_cases. Qed.

Lemma get_enrich_b4 :
  get (enrich row ce c m) k_b4 = concat_str (js_or (get row k_b4) (JStr [])) b4_suffix.
Proof. enrich_cases. Qed.

Lemma get_enrich_other k :
  k ∉ [k_timeSpentMinutes; k_cleanedEmail; k_COVID; k_exerciseDescription; k_from; k_b4] ->
  get (enrich row ce c m) k = get row k.
Proof. intros Hk. enrich_cases. Qed.

Lemma keys_enrich :
  NoDup (keys row) -> NoDup (keys (enrich row ce c m)).
Proof.
  intros Hnd. unfold enrich. cbv zeta.
  repeat (apply NoDup_keys_set || case_match); done.
Qed.
End EnrichFields.

(** ** The contract of the listener (spec, section 4.1) *)

(** [ks] with [k] appended when it is not a column yet: the key order of
    an object after [o[k] = v]. *)
Definition add_key (ks : list jsstr) (k : jsstr) : list jsstr :=
  if decide (k ∈ ks) then ks else ks ++ [k].

(** The columns of a pushed row built from a row with columns [ks]: the
    four unconditional assignments of lines 61-63 and 73 add their
    column when it is missing; the remaps of lines 65-71 never add one. *)
Definition enriched_keys (ks : list jsstr) : list jsstr :=
  fold_left add_key [k_timeSpentMinutes; k_cleanedEmail; k_COVID; k_b4] ks.

(** The keys the listener writes. *)
Definition derived_keys : list jsstr :=
  [k_timeSpentMinutes; k_cleanedEmail; k_COVID; k_exerciseDescription; k_from; k_b4].

Lemma keys_enrich_eq `{CaseMapping} `{LocalTime} row ce c m :
  keys (enrich row ce c m) = enriched_keys (keys row).
Proof.
  unfold enrich. cbv zeta. repeat rewrite ?keys_cond_set, ?keys_set. reflexivity.
Qed.

Lemma elem_of_enriched_keys k ks :
  k ∈ enriched_keys ks <-> k ∈ ks \/ k ∈ [k_timeSpentMinutes; k_cleanedEmail; k_COVID; k_b4].
Proof.
  unfold enriched_keys. generalize [k_timeSpentMinutes; k_cleanedEmail; k_COVID; k_b4] as ds.
  intros ds. revert ks. induction ds as [|d ds IH]; intros ks; simpl; [set_solver|].
  rewrite IH. unfold add_key. case_decide; set_solver.
Qed.

Section Contract.
Context `{CaseMapping} `{LocalTime}.

(** A row is kept when its e-mail cleans and its [zam] is ["0"]. *)
Definition retained (row : obj) : Prop :=
  exists ce, cleanEmail (get row k_teacherEmail) = Some ce /\ get row k_zam = JStr (js "0").

(** What the spec promises of an emitted row [r] built from [row]. *)
Record row_contract (row r : obj) : Prop := {
  rc_email : exists e ce, get row k_teacherEmail = JStr e /\ ce = normalize_email e /\
                          get r k_cleanedEmail = JStr ce /\ email_shape ce /\
                          Forall (fun x => is_ascii_upper x = false) ce;
  rc_zam : get r k_zam = JStr (js "0");
  rc_minutes : exists n, get r k_timeSpentMinutes = JNum n /\
                         convertToMinutes (get row k_timeSpent) = Ok n /\
                         (n = NaN \/ num_leb n (jsint 60) = true);
  rc_covid : exists c, get r k_COVID = JNum (jsint c) /\ covid_of (get row k_dateCreated) = Ok c /\
                       (c = 0 \/ c = 1)%Z;
  rc_description : get r k_exerciseDescription =
                   if strict_eq (get row k_exerciseDescription) (JStr whole_class_cs)
                   then JStr whole_class_en else get row k_exerciseDescription;
  rc_from : get r k_from =
            if strict_eq (get row k_from) (JStr (js "free")) then JStr (js "Fred") else get row k_from;
  rc_b4 : get r k_b4 = JStr (ToString (js_or (get row k_b4) (JStr [])) ++ b4_suffix);
  rc_other : forall k, k ∉ derived_keys -> get r k = get row k;
  rc_keys : NoDup (keys row) -> NoDup (keys r)
}.
End Contract.

#[export] Instance retained_dec `{CaseMapping} row : Decision (retained row).
Proof.
  unfold retained. destruct (cleanEmail (get row k_teacherEmail)) as [ce|].
  - destruct (decide (get row k_zam = JStr (js "0"))); [left; eauto | right; naive_solver].
  - right. naive_solver.
Defined.

Lemma cleanEmail_nonempty `{CaseMapping} v ce : cleanEmail v = Some ce -> ce <> [].
Proof.
  intros (e & _ & _ & Hs)%cleanEmail_some. apply email_shape_has_at in Hs.
  intros ->. set_solver.
Qed.

Lemma covid_of_01 `{LocalTime} v c : covid_of v = Ok c -> (c = 0 \/ c = 1)%Z.
Proof.
  unfold covid_of. destruct (parseCzechDate v) as [r|]; simpl; [|discriminate].
  intros [= <-]. apply covid_flag_01.
Qed.

Lemma convertToMinutes_cell v :
  (v = JUndef \/ exists s, v = JStr s) -> exists n, convertToMinutes v = Ok n.
Proof.
  intros [-> | [s ->]]; [by eexists|].
  destruct (convertToMinutes (JStr s)) eqn:E; [by eexists|].
  destruct e. apply convertToMinutes_throw_iff in E as (n & [=] & _).
Qed.

(** ** Properties of the listener *)

Section HandlerProps.
Context `{CaseMapping} `{LocalTime}.

Lemma onData_retained row ce :
  cleanEmail (get row k_teacherEmail) = Some ce -> get row k_zam = JStr (js "0") ->
  onData row = (let! covid := covid_of (get row k_dateCreated) in
                let! minutes := convertToMinutes (get row k_timeSpent) in
                Ok (Some (enrich row ce covid minutes))).
Proof.
  intros He Hz. unfold onData. rewrite He, Hz.
  rewrite bool_decide_eq_false_2 by (by apply cleanEmail_nonempty in He). reflexivity.
Qed.
Lemma onData_drop_iff row : onData row = Ok None <-> ~ retained row.
Proof.
  unfold retained. destruct (cleanEmail (get row k_teacherEmail)) as [ce|] eqn:He.
  - destruct (strict_eq (get row k_zam) (JStr (js "0"))) eqn:Hz.
    + apply strict_eq_str in Hz. rewrite (onData_retained row ce) by done.
      split; [|naive_solver].
      destruct (covid_of _), (convertToMinutes _); simpl; discriminate.
    + unfold onData. rewrite He, Hz, orb_true_r. split; [|done].
      intros _ (ce' & _ & Hz'). apply (strict_eq_str _ (js "0")) in Hz'. congruence.
  - unfold onData. rewrite He. split; [|done]. intros _ (ce' & [=] & _).
Qed.

(** C4: the listener returns early (line 56) exactly when the row is not
    kept: its e-mail does not clean or its [zam] is not ["0"]. *)
Theorem onData_drop row : onData row = Ok None <-> ~ retained row.
Proof. intros; eapply onData_drop_iff; eauto. Qed.
Lemma onData_pushed row r : onData row = Ok (Some r) -> retained row /\ row_contract row r.
Proof.
  unfold onData. destruct (cleanEmail (get row k_teacherEmail)) as [ce|] eqn:He; [|discriminate].
  destruct (bool_decide (ce = []) || negb (strict_eq (get row k_zam) (JStr (js "0")))) eqn:Hc;
    [discriminate|].
  apply orb_false_iff in Hc as [_ Hz%negb_false_iff]. apply strict_eq_str in Hz.
  destruct (covid_of (get row k_dateCreated)) as [c|] eqn:Hcov; [|discriminate]. simpl.
  destruct (convertToMinutes (get row k_timeSpent)) as [n|] eqn:Hmin; [|discriminate]. simpl.
  intros [= <-]. split; [by exists ce|].
  pose proof He as He'. apply cleanEmail_some in He' as (e & He' & -> & Hs).
  split.
  - exists e, (normalize_email e). rewrite get_enrich_email. split_and!; try done.
    apply toLowerCase_no_upper.
  - rewrite get_enrich_other by decide_goal. done.
  - exists n. rewrite get_enrich_minutes. split_and!; [done | done |].
    by apply (convertToMinutes_le60 _ _ Hmin).
  - exists c. rewrite get_enrich_covid. split_and!; [done | done |]. by apply (covid_of_01 _ _ Hcov).
  - apply get_enrich_description.
  - apply get_enrich_from.
  - apply get_enrich_b4.
  - intros k Hk. by apply get_enrich_other.
  - apply keys_enrich.
Qed.

(** C5: every row the listener pushes is kept and meets the contract of
    the spec: the cleaned e-mail, [zam] = ["0"], the capped minutes, a
    0/1 COVID flag, the two remaps, the [b4] suffix, the other columns
    unchanged, and no duplicate column. *)
Theorem onData_contract row r : onData row = Ok (Some r) -> retained row /\ row_contract row r.
Proof. intros; eapply onData_pushed; eauto. Qed.
Lemma onData_throw_iff row :
  (get row k_timeSpent = JUndef \/ exists s, get row k_timeSpent = JStr s) ->
  onData row = Throw TypeError <-> retained row /\ forall s, get row k_dateCreated <> JStr s.
Proof.
  intros Ht. destruct (convertToMinutes_cell _ Ht) as [n Hn]. split.
  - intros Hthrow. destruct (decide (retained row)) as [Hr|Hr].
    2: { apply onData_drop_iff in Hr. congruence. }
    destruct Hr as (ce & He & Hz). split; [by exists ce|].
    rewrite (onData_retained row ce He Hz), Hn in Hthrow.
    apply covid_of_throw_iff. destruct (covid_of _); simpl in *; congruence.
  - intros [(ce & He & Hz) Hd]. rewrite (onData_retained row ce He Hz).
    apply covid_of_throw_iff in Hd. by rewrite Hd.
Qed.

(** C6: on a row whose [timeSpent] cell is a string or missing, the
    listener throws exactly when the row is kept and has no
    [dateCreated] cell: [parseCzechDate(undefined)] calls [split] on
    [undefined]. *)
Theorem onData_throws row :
  (get row k_timeSpent = JUndef \/ exists s, get row k_timeSpent = JStr s) ->
  onData row = Throw TypeError <-> retained row /\ forall s, get row k_dateCreated <> JStr s.
Proof. intros; eapply onData_throw_iff; eauto. Qed.
Lemma onData_enrich row r : onData row = Ok (Some r) -> exists ce c n, r = enrich row ce c n.
Proof.
  unfold onData. destruct (cleanEmail _) as [ce|]; [|discriminate].
  case_match; [discriminate|].
  destruct (covid_of _) as [c|]; simpl; [|discriminate].
  destruct (convertToMinutes _) as [n|]; simpl; [|discriminate].
  intros [= <-]. eauto.
Qed.
End HandlerProps.

(** ** A concrete row, in Prague's winter offset with the Latin-1 case mapping *)

Definition example_row : obj :=
  [(k_teacherEmail, JStr (js "Foo,Bar@Example.com")); (k_zam, JStr (js "0"));
   (k_timeSpent, JStr (js "00:10:00")); (k_dateCreated, JStr (js "13.3.2020 08:00"));
   (k_exerciseDescription, JStr whole_class_cs); (k_from, JStr (js "free"));
   (k_b4, JStr (js "Ukol"))].

Definition example_out : obj :=
  match @onData latin1_case (fixed_offset_time 3600000) example_row with
  | Ok (Some r) => r
  | _ => []
  end.

Lemma onData_contract_witness :
  @retained latin1_case example_row /\
  @row_contract latin1_case (fixed_offset_time 3600000) example_row example_out.
Proof. apply (@onData_contract latin1_case (fixed_offset_time 3600000)). vm_compute. reflexivity. Defined.

Lemma onData_throws_witness :
  @onData latin1_case (fixed_offset_time 3600000) (take 2 example_row) = Throw TypeError.
Proof.
  apply (@onData_throws latin1_case (fixed_offset_time 3600000)); [left; reflexivity|].
  split; [exists (js "foo.bar@example.com"); split; reflexivity | intros s; discriminate].
Defined.
