(* ===== verification/Pipeline.v ===== *)
(** * The stream (src/cleaner.js, lines 50-85)

    csv-parser emits one ['data'] event per row, in file order, then one
    ['end'] event. The ['data'] listener pushes kept rows onto the shared
    array [results] (line 50); the ['end'] listener writes [results] with
    fast-csv. An exception thrown by the ['data'] listener escapes the
    event emitter and ends the process: nothing is written. [step] is the
    transition relation of this event loop, [handle] its executable
    version, and [run] feeds it the events of a whole file. *)

From S2P Require Import Prelude JSString JSNumber Regex Email Minutes JSDate Row.

Inductive event :=
| Data (row : obj)
| End.

(** [Written out]: the ['end'] listener handed [out] to fast-csv. *)
Inductive stream_phase :=
| Reading
| Written (out : list obj)
| Crashed.

Record state := mkState { results : list obj; phase : stream_phase }.

Definition init : state := mkState [] Reading.

(** The events csv-parser emits for a file of rows. *)
Definition events_of (rows : list obj) : list event := map Data rows ++ [End].

Section Stream.
Context `{CaseMapping} `{LocalTime}.

Inductive step : state -> event -> state -> Prop :=
| step_push s row r :
    phase s = Reading -> onData row = Ok (Some r) ->
    step s (Data row) (mkState (results s ++ [r]) Reading)
| step_skip s row :
    phase s = Reading -> onData row = Ok None -> step s (Data row) s
| step_crash s row e :
    phase s = Reading -> onData row = Throw e -> step s (Data row) (mkState (results s) Crashed)
| step_end s :
    phase s = Reading -> step s End (mkState (results s) (Written (results s))).

Inductive reachable : state -> Prop :=
| reach_init : reachable init
| reach_step s e s' : reachable s -> step s e s' -> reachable s'.

(** One event (lines 54-76 and 77-85); after a crash or the write,
    nothing more happens. *)
Definition handle (s : state) (e : event) : state :=
  match phase s with
  | Reading =>
      match e with
      | Data row =>
          match onData row with
          | Ok (Some r) => mkState (results s ++ [r]) Reading
          | Ok None => s
          | Throw _ => mkState (results s) Crashed
          end
      | End => mkState (results s) (Written (results s))
      end
  | _ => s
  end.

Definition run (rows : list obj) : state := fold_left handle (events_of rows) init.

(** The rows the listener pushes, in order, when none throws. *)
Definition emitted (rows : list obj) : list obj :=
  omap (fun row => match onData row with Ok (Some r) => Some r | _ => None end) rows.
End Stream.

(** ** Properties of the stream *)

Section StreamProps.
Context `{CaseMapping} `{LocalTime}.
Lemma step_handle_iff s e s' : step s e s' <-> phase s = Reading /\ s' = handle s e.
Proof.
  split.
  - intros Hs. destruct Hs as [s0 row r Hp Hd|s0 row Hp Hd|s0 row err Hp Hd|s0 Hp];
      unfold handle; rewrite Hp; try rewrite Hd; split; try done; by destruct s0.
  - intros [Hp ->]. unfold handle. rewrite Hp. destruct e as [row|]; [|by constructor].
    destruct (onData row) as [[r|]|err] eqn:Hd.
    + by constructor.
    + by apply step_skip.
    + by eapply step_crash.
Qed.

(** The invariant: every pushed row is the image of a kept row and meets
    the contract, and what is written is [results]. *)
Definition good_state (s : state) : Prop :=
  Forall (fun r => exists row, retained row /\ row_contract row r) (results s) /\
  (forall out, phase s = Written out -> out = results s).
Lemma reachable_invariant s : reachable s -> good_state s.
Proof.
  induction 1 as [|s e s' Hr [Hres Hout] Hs].
  - split; [constructor | done].
  - inversion Hs as [s0 row r Hp Hd|s0 row Hp Hd|s0 row err Hp Hd|s0 Hp]; subst; simpl.
    + split; [|done]. apply Forall_app. split; [done|].
      constructor; [|constructor]. exists row. by apply onData_pushed.
    + done.
    + split; [done | discriminate].
    + split; [done | by intros out [= ->]].
Qed.

(** C3: every reachable state satisfies the invariant: the output dataset
    holds only kept rows ([cleanedEmail] valid, [zam] = ["0"]) meeting
    the contract of the spec (section 3). *)
Theorem reachable_good s : reachable s -> good_state s.
Proof. intros; eapply reachable_invariant; eauto. Qed.

Lemma fold_handle_stopped evs s : phase s <> Reading -> fold_left handle evs s = s.
Proof.
  revert s. induction evs as [|e evs IH]; intros s Hp; simpl; [done|].
  unfold handle at 2. destruct (phase s) eqn:E; [done | | ]; by apply IH; rewrite E.
Qed.

Lemma fold_data_ok rows s :
  phase s = Reading -> (forall row, row ∈ rows -> forall e, onData row <> Throw e) ->
  fold_left handle (map Data rows) s = mkState (results s ++ emitted rows) Reading.
Proof.
  revert s. induction rows as [|row rows IH]; intros s Hp Hok; simpl.
  - rewrite app_nil_r. by destruct s; simpl in *; subst.
  - unfold handle at 2. rewrite Hp. destruct (onData row) as [[r|]|err] eqn:Hd.
    + rewrite IH; [simpl; by rewrite <- app_assoc | done | set_solver].
    + rewrite IH; [done | done | set_solver].
    + exfalso. by apply (Hok row ltac:(set_solver) err).
Qed.
Lemma run_no_throw rows :
  (forall row, row ∈ rows -> forall e, onData row <> Throw e) ->
  run rows = mkState (emitted rows) (Written (emitted rows)).
Proof.
  intros Hok. unfold run, events_of. rewrite fold_left_app, fold_data_ok by done.
  reflexivity.
Qed.

(** C8: when no row throws, the run ends with fast-csv writing the pushed
    rows, in the order of the file. *)
Theorem run_written rows :
  (forall row, row ∈ rows -> forall e, onData row <> Throw e) ->
  run rows = mkState (emitted rows) (Written (emitted rows)).
Proof. intros; eapply run_no_throw; eauto. Qed.

Lemma fold_data_crash rows s :
  (exists row e, row ∈ rows /\ onData row = Throw e) ->
  phase s = Reading \/ phase s = Crashed ->
  phase (fold_left handle (map Data rows) s) = Crashed.
Proof.
  revert s. induction rows as [|row rows IH]; intros s (r & err & Hin & Hd) Hp.
  { set_solver. }
  simpl. destruct Hp as [Hp | Hp].
  2: { rewrite fold_handle_stopped; unfold handle; rewrite Hp; [done | congruence]. }
  apply elem_of_cons in Hin as [-> | Hin].
  - unfold handle at 2. rewrite Hp, Hd. by rewrite fold_handle_stopped.
  - apply IH; [eauto|]. unfold handle. rewrite Hp.
    destruct (onData row) as [[r'|]|err']; simpl; auto.
Qed.

Lemma run_crashes rows :
  (exists row e, row ∈ rows /\ onData row = Throw e) -> phase (run rows) = Crashed.
Proof.
  intros Hcrash. unfold run, events_of. rewrite fold_left_app.
  pose proof (fold_data_crash rows init Hcrash (or_introl eq_refl)) as Hc.
  simpl. unfold handle at 1. by rewrite Hc.
Qed.

(** C7: when a row throws, the process stops and nothing is written. *)
Theorem run_crashed rows :
  (exists row e, row ∈ rows /\ onData row = Throw e) -> phase (run rows) = Crashed.
Proof. intros; eapply run_crashes; eauto. Qed.

(** C9: the rows pushed before the first row that throws stay in [results]
    and are never written: after the crash the stream takes no event, the
    'end' handler included. *)
Theorem run_crash_prefix pre row e post :
  (forall r, r ∈ pre -> forall e', onData r <> Throw e') -> onData row = Throw e ->
  run (pre ++ row :: post) = mkState (emitted pre) Crashed.
Proof.
  intros Hpre Hrow. unfold run, events_of.
  rewrite map_app, <- app_assoc, fold_left_app, fold_data_ok by done.
  cbn [map app fold_left]. unfold handle at 2. cbn [phase results]. rewrite Hrow.
  by apply fold_handle_stopped.
Qed.

End StreamProps.

Section StreamRefinement.
Context `{CaseMapping} `{LocalTime}.

Lemma emitted_contract rows :
  (forall row, row ∈ rows -> forall e, onData row <> Throw e) ->
  Forall2 row_contract (filter (fun row => retained row) rows) (emitted rows).
Proof.
  induction rows as [|row rows IH]; intros Hok; simpl; [constructor|].
  destruct (onData row) as [[r|]|err] eqn:Hd.
  - destruct (onData_pushed row r Hd) as [Hr Hc].
    rewrite filter_cons_True by done. constructor; [done|]. apply IH. set_solver.
  - rewrite filter_cons_False by (by apply onData_drop_iff). apply IH. set_solver.
  - exfalso. by apply (Hok row ltac:(set_solver) err).
Qed.

(** A row as csv-parser delivers it for a file with the columns the
    listener reads: a [dateCreated] string, and a [timeSpent] string or
    no such cell. *)
Definition has_cells (row : obj) : Prop :=
  (exists s, get row k_dateCreated = JStr s) /\
  (get row k_timeSpent = JUndef \/ exists s, get row k_timeSpent = JStr s).

Lemma has_cells_no_throw row e : has_cells row -> onData row <> Throw e.
Proof.
  intros [[s Hs] Ht] Hthrow. destruct e.
  apply (onData_throw_iff row Ht) in Hthrow as [_ Hd]. by apply (Hd s).
Qed.

Lemma has_cells_all_no_throw rows :
  Forall has_cells rows -> forall row, row ∈ rows -> forall e, onData row <> Throw e.
Proof. intros Hcells row Hin e. apply has_cells_no_throw. rewrite Forall_forall in Hcells. auto. Qed.

(** C1: refinement of the spec's pipeline: on a file whose rows have the
    cells the listener reads, the run writes one row per kept input row,
    in input order, each meeting the contract of its input row. *)
Theorem run_refines rows :
  Forall has_cells rows ->
  exists out, run rows = mkState out (Written out) /\
              Forall2 row_contract (filter (fun row => retained row) rows) out.
Proof.
  intros Hcells.
  pose proof (has_cells_all_no_throw rows Hcells) as Hok.
  exists (emitted rows). split; [by apply run_no_throw | by apply emitted_contract].
Qed.

Lemma handle_reachable s e : reachable s -> reachable (handle s e).
Proof.
  intros Hr. destruct (phase s) eqn:Hp.
  - eapply reach_step; [exact Hr|]. by apply step_handle_iff.
  - unfold handle. by rewrite Hp.
  - unfold handle. by rewrite Hp.
Qed.

Lemma emitted_keys rows K :
  Forall (fun row => keys row = K) rows -> Forall (fun r => keys r = enriched_keys K) (emitted rows).
Proof.
  induction 1 as [|row rows Hk _ IH]; simpl; [constructor|].
  destruct (onData row) as [[r|]|err] eqn:Hd; simpl; [|done|done].
  constructor; [|done]. apply onData_enrich in Hd as (ce & c & n & ->).
  by rewrite keys_enrich_eq, Hk.
Qed.

(** C10: the header fast-csv writes covers every row. When the rows of
    the file have the same columns [K] and the listener reads its cells,
    every written row has the columns [enriched_keys K], in the same order:
    the columns of [K], then each derived column that [K] lacks. fast-csv
    takes its header from the first row, so the header is the union of
    the input and derived columns, as the spec says (section 6). *)
Theorem run_uniform_columns rows K :
  Forall has_cells rows -> Forall (fun row => keys row = K) rows ->
  exists out, run rows = mkState out (Written out) /\
              Forall (fun r => keys r = enriched_keys K) out.
Proof.
  intros Hcells HK. exists (emitted rows). split; [|by apply emitted_keys].
  apply run_no_throw, has_cells_all_no_throw, Hcells.
Qed.

End StreamRefinement.

(** ** The end-to-end example of the spec *)

(** Row 1 passes, row 2 has [zam] = ["1"], row 3 an invalid e-mail. *)
Definition spec_rows : list obj :=
  [example_row; set k_zam (JStr (js "1")) example_row;
   set k_teacherEmail (JStr (js "nobody")) example_row].

Lemma run_refines_witness :
  exists out, @run latin1_case (fixed_offset_time 3600000) spec_rows = mkState out (Written out) /\
    Forall2 (@row_contract latin1_case (fixed_offset_time 3600000))
            (filter (fun row => @retained latin1_case row) spec_rows) out.
Proof.
  apply (@run_refines latin1_case (fixed_offset_time 3600000)).
  repeat constructor; (eexists; reflexivity) || (right; eexists; reflexivity).
Defined.

Lemma run_crashed_witness :
  phase (@run latin1_case (fixed_offset_time 3600000) [take 2 example_row]) = Crashed.
Proof.
  apply (@run_crashed latin1_case (fixed_offset_time 3600000)).
  exists (take 2 example_row), TypeError. split; [set_solver | reflexivity].
Defined.

Lemma run_crash_prefix_witness :
  @run latin1_case (fixed_offset_time 3600000) ([example_row] ++ take 2 example_row :: [example_row]) =
  mkState (@emitted latin1_case (fixed_offset_time 3600000) [example_row]) Crashed.
Proof.
  apply (@run_crash_prefix latin1_case (fixed_offset_time 3600000) _ _ TypeError).
  - intros r Hr e' Hc. apply list_elem_of_singleton in Hr as ->. vm_compute in Hc. discriminate.
  - reflexivity.
Defined.

Lemma run_written_witness :
  @run latin1_case (fixed_offset_time 3600000) spec_rows =
  mkState (@emitted latin1_case (fixed_offset_time 3600000) spec_rows)
          (Written (@emitted latin1_case (fixed_offset_time 3600000) spec_rows)).
Proof.
  apply (@run_written latin1_case (fixed_offset_time 3600000)).
  intros row Hin e. apply has_cells_no_throw.
  repeat (apply elem_of_cons in Hin as [-> | Hin]);
    [split; [eexists; reflexivity | right; eexists; reflexivity] .. | set_solver].
Defined.

Lemma reachable_good_witness :
  @reachable latin1_case (fixed_offset_time 3600000) (mkState [example_out] Reading) /\
  @good_state latin1_case (fixed_offset_time 3600000) (mkState [example_out] Reading).
Proof.
  assert (Hr : @reachable latin1_case (fixed_offset_time 3600000) (mkState [example_out] Reading)).
  { apply (reach_step init (Data example_row)); [apply reach_init|].
    apply (step_push init example_row example_out); [reflexivity | vm_compute; reflexivity]. }
  split; [exact Hr | apply (reachable_good _ Hr)].
Defined.

Lemma run_uniform_columns_witness :
  exists out, @run latin1_case (fixed_offset_time 3600000) spec_rows = mkState out (Written out) /\
              Forall (fun r => keys r = enriched_keys (keys example_row)) out.
Proof.
  apply (@run_uniform_columns latin1_case (fixed_offset_time 3600000)).
  - repeat constructor; (eexists; reflexivity) || (right; eexists; reflexivity).
  - repeat constructor; vm_compute; reflexivity.
Defined.

