(* ===== verification/Script.v ===== *)
(** * The script around the stream (src/cleaner.js, lines 7-8, 52 and 77-85)

    The paths of the input and output files (lines 7-8), and the effects
    the script has on the outside world, in order:
    - it reads the input file through csv-parser (line 52);
    - if no row throws, it writes [results] as TSV to the output file
      (lines 78-81) and, once the write stream finishes, logs one line
      (lines 82-84);
    - a row that throws ends the process with an uncaught exception.
    [script] derives these effects from the final state of [run]. *)

From S2P Require Import Prelude JSString JSNumber JSDate Row Pipeline.

Local Open Scope N_scope.

Definition u_slash : N := 47.

(** [path.join(dir, file)] for a normalised directory [dir] (as
    [__dirname] is) and a plain file name: one separator between them. *)
Definition path_join (dir file : jsstr) : jsstr :=
  match dir with
  | [] => file
  | _ => if decide (last dir = Some u_slash) then dir ++ file else dir ++ u_slash :: file
  end.

(** Line 7. *)
Definition inputFilePath (dirname : jsstr) : jsstr := path_join dirname (js "EDIT_THIS_NAME.csv").

(** Line 8. *)
Definition outputFilePath (dirname : jsstr) : jsstr :=
  path_join dirname (js "processed_done_total.csv").

(** [`✅ Cleaned dataset saved to: ${outputFilePath}`] (line 83); U+2705
    is one UTF-16 code unit. *)
Definition log_message (dirname : jsstr) : jsstr :=
  9989 :: js " Cleaned dataset saved to: " ++ outputFilePath dirname.

(** What the script does to the outside world. *)
Inductive effect :=
| ReadCsv (path : jsstr)
| WriteTsv (path : jsstr) (rows : list obj)
| Log (msg : jsstr)
| Uncaught (e : js_error).

Section Script.
Context `{CaseMapping} `{LocalTime}.

(** The effects of one execution on the rows csv-parser reads. *)
Definition script (dirname : jsstr) (rows : list obj) : list effect :=
  ReadCsv (inputFilePath dirname) ::
  match phase (run rows) with
  | Written out => [WriteTsv (outputFilePath dirname) out; Log (log_message dirname)]
  | Crashed => [Uncaught TypeError]
  | Reading => []
  end.
End Script.

(** ** Properties *)

Lemma path_join_sep dir file :
  dir <> [] -> last dir <> Some u_slash -> path_join dir file = dir ++ u_slash :: file.
Proof. intros Hd Hl. destruct dir; [done|]. unfold path_join. by rewrite decide_False. Qed.

Section ScriptProps.
Context `{CaseMapping} `{LocalTime}.

(** C2: composition of the script with the refinement of the stream: on a
    file whose rows have the cells the listener reads, the script writes
    the kept rows, in order and each meeting the contract, to
    [outputFilePath], then logs the path. *)
Theorem script_refines dirname rows :
  Forall has_cells rows ->
  exists out,
    script dirname rows =
      [ReadCsv (inputFilePath dirname); WriteTsv (outputFilePath dirname) out;
       Log (log_message dirname)] /\
    Forall2 row_contract (filter (fun row => retained row) rows) out.
Proof.
  intros Hcells.
  pose proof (has_cells_all_no_throw rows Hcells) as Hok.
  exists (emitted rows). split; [|by apply emitted_contract].
  unfold script. by rewrite run_no_throw.
Qed.
End ScriptProps.

Lemma script_refines_witness :
  exists out,
    @script latin1_case (fixed_offset_time 3600000) (js "/home/lab") spec_rows =
      [ReadCsv (js "/home/lab/EDIT_THIS_NAME.csv"); WriteTsv (js "/home/lab/processed_done_total.csv") out;
       Log (9989 :: js " Cleaned dataset saved to: /home/lab/processed_done_total.csv")] /\
    Forall2 (@row_contract latin1_case (fixed_offset_time 3600000))
            (filter (fun row => @retained latin1_case row) spec_rows) out.
Proof.
  apply (@script_refines latin1_case (fixed_offset_time 3600000)).
  repeat constructor; (eexists; reflexivity) || (right; eexists; reflexivity).
Defined.
